(** * The UTM builder of penguin-adinfo: class [GA]

    A shallow embedding of the compiled class [GA] (the Google Analytics
    link builder, a subclass of [AnalyticsTool]) and proofs about the
    [BuildResult] it returns through the getter [buildedFields].

    The class is stateful JavaScript: the constructor fills five objects
    keyed by UTM parameter name and the [url] property, by nested
    [forEach] loops whose callbacks mutate [this] and local variables.
    The model keeps that shape: methods are computations in a small
    state-and-exception monad over the instance and the console.

    The objects the class uses as dictionaries are ordinary objects: a
    read [o[k]] that finds no own property goes on to [Object.prototype],
    and a write under the key [__proto__] reaches the setter of
    [Object.prototype] instead of creating a property. *)

From Stdlib Require Import List NArith String Ascii Bool Permutation.
Import ListNotations.
Local Open Scope list_scope.

(* ================================================================== *)
(** * JavaScript strings *)
(* ================================================================== *)

(** A JavaScript string is a sequence of UTF-16 code units; [slice],
    [+] and template literals work on code units. *)
Definition code_unit := N.
Definition jsstring := list code_unit.

(** [utf8_units] reads the bytes of a source literal (the source files are
    UTF-8) as the code units of the string the literal denotes. *)
Fixpoint utf8_units (bs : list N) : jsstring :=
  match bs with
  | [] => []
  | b :: r =>
      if (b <? 128)%N then b :: utf8_units r
      else if (b <? 224)%N then
        match r with
        | b2 :: r2 =>
            N.lor (N.shiftl (N.land b 31) 6) (N.land b2 63) :: utf8_units r2
        | [] => [b]
        end
      else if (b <? 240)%N then
        match r with
        | b2 :: b3 :: r3 =>
            N.lor (N.shiftl (N.land b 15) 12)
                  (N.lor (N.shiftl (N.land b2 63) 6) (N.land b3 63))
              :: utf8_units r3
        | _ => [b]
        end
      else
        match r with
        | b2 :: b3 :: b4 :: r4 =>
            let cp :=
              N.lor (N.shiftl (N.land b 7) 18)
                (N.lor (N.shiftl (N.land b2 63) 12)
                   (N.lor (N.shiftl (N.land b3 63) 6) (N.land b4 63))) in
            let v := (cp - 65536)%N in
            (55296 + N.shiftr v 10)%N :: (56320 + N.land v 1023)%N
              :: utf8_units r4
        | _ => [b]
        end
  end.

(** The string denoted by a literal of the source. *)
Definition lit (s : string) : jsstring :=
  utf8_units (map N_of_ascii (list_ascii_of_string s)).

Fixpoint jsstring_eqb (a b : jsstring) : bool :=
  match a, b with
  | [], [] => true
  | x :: a', y :: b' => (x =? y)%N && jsstring_eqb a' b'
  | _, _ => false
  end.

(** [s.slice(0, -1)]: all but the last code unit; the empty string stays
    empty. *)
Definition slice_0_m1 (s : jsstring) : jsstring := removelast s.

(** What a property read [o[k]] gives on an ordinary object whose own
    properties hold values of type [V]: the value of the own property;
    [undefined]; or, when the object has no own property [k] and
    [Object.prototype] has a member of that name, that member, which is a
    built-in function, or for [__proto__] the object [Object.prototype]
    itself. *)
Inductive jsval (V : Type) : Type :=
| Value (v : V)
| Undefined
| Builtin (k : jsstring).
Arguments Value {V} v.
Arguments Undefined {V}.
Arguments Builtin {V} k.

(** The key whose writes go to the setter of [Object.prototype]. *)
Definition proto_key : jsstring := lit "__proto__".

(** A string-or-undefined value inside a template literal or as an operand
    of [+] with a string: [undefined] prints as its name. *)
Definition template (v : option jsstring) : jsstring :=
  match v with
  | Some s => s
  | None => lit "undefined"
  end.

(** The text of a member of [Object.prototype] as Node.js prints it: the
    prototype object as any plain object, a built-in function by its
    name, which for the member [constructor] is [Object]. *)
Definition builtin_text (k : jsstring) : jsstring :=
  if jsstring_eqb k proto_key then lit "[object Object]"
  else lit "function "
         ++ (if jsstring_eqb k (lit "constructor") then lit "Object" else k)
         ++ lit "() { [native code] }".

(** The value of a property read inside a template literal or as an
    operand of [+] with a string. *)
Definition template_val (v : jsval jsstring) : jsstring :=
  match v with
  | Value s => s
  | Undefined => lit "undefined"
  | Builtin k => builtin_text k
  end.

(** [Array.prototype.join]. *)
Fixpoint join (sep : jsstring) (l : list jsstring) : jsstring :=
  match l with
  | [] => []
  | [x] => x
  | x :: l' => x ++ sep ++ join sep l'
  end.

(** Truthiness of what a read of a flag gives: objects and functions are
    truthy. *)
Definition truthy (v : jsval bool) : bool :=
  match v with
  | Value b => b
  | Undefined => false
  | Builtin _ => true
  end.

(** [t] occurs in [s] as a substring. *)
Definition contains (s t : jsstring) : Prop :=
  exists pre post, s = pre ++ t ++ post.

(* ================================================================== *)
(** * JavaScript objects used as dictionaries *)
(* ================================================================== *)

(** An object is the list of its own properties in the order [Object.keys]
    enumerates them; its prototype is [Object.prototype], as for an object
    literal and for what [JSON.parse] returns. (Keys that are array
    indices are enumerated first by JavaScript; the input objects are
    given in their own [Object.keys] order, and the class writes its keys
    in that order, so the orders agree.) *)
Module JsObj.

Definition t (V : Type) := list (jsstring * V).

Definition empty {V : Type} : t V := [].

(** The value of the own property [k], if the object has one. *)
Fixpoint get {V : Type} (o : t V) (k : jsstring) : option V :=
  match o with
  | [] => None
  | (k', v) :: o' => if jsstring_eqb k' k then Some v else get o' k
  end.

Definition keys {V : Type} (o : t V) : list jsstring := map fst o.

Fixpoint mem (k : jsstring) (ks : list jsstring) : bool :=
  match ks with
  | [] => false
  | k' :: ks' => jsstring_eqb k' k || mem k ks'
  end.

(** The names of the members of [Object.prototype]. *)
Definition prototype_names : list jsstring :=
  [lit "constructor"; lit "__defineGetter__"; lit "__defineSetter__";
   lit "hasOwnProperty"; lit "__lookupGetter__"; lit "__lookupSetter__";
   lit "isPrototypeOf"; lit "propertyIsEnumerable"; lit "toString";
   lit "valueOf"; lit "__proto__"; lit "toLocaleString"].

Definition inherited (k : jsstring) : bool := mem k prototype_names.

(** The read [o[k]]: the own property, else the member of
    [Object.prototype] of that name, else [undefined]. *)
Definition lookup {V : Type} (o : t V) (k : jsstring) : jsval V :=
  match get o k with
  | Some v => Value v
  | None => if inherited k then Builtin k else Undefined
  end.

(** Writing an own property keeps its place; a new property is appended. *)
Fixpoint put {V : Type} (o : t V) (k : jsstring) (v : V) : t V :=
  match o with
  | [] => [(k, v)]
  | (k', v') :: o' =>
      if jsstring_eqb k' k then (k', v) :: o' else (k', v') :: put o' k v
  end.

(** The write [o[k] = v]. On an object without own property [__proto__]
    the key [__proto__] reaches the setter that [Object.prototype]
    declares for it, which changes nothing for the values the class
    writes (strings, booleans and [undefined], which are no prototypes,
    and the prototype the object already has): no property is created. The
    other members of [Object.prototype] are writable data properties, so
    a write under their name creates an own property as for any key. *)
Definition set {V : Type} (o : t V) (k : jsstring) (v : V) : t V :=
  if jsstring_eqb k proto_key && negb (mem k (keys o)) then o
  else put o k v.

(** The string an object of results holds as own property [k], if any. *)
Definition read (o : t (jsval jsstring)) (k : jsstring) : option jsstring :=
  match get o k with
  | Some (Value s) => Some s
  | _ => None
  end.

(** The properties a loop of writes on [{}] creates from the keys of [o]:
    all but [__proto__]. *)
Definition settable {V : Type} (o : t V) : t V :=
  filter (fun e => negb (jsstring_eqb (fst e) proto_key)) o.

Fixpoint nodup_keys (ks : list jsstring) : bool :=
  match ks with
  | [] => true
  | k :: ks' => negb (mem k ks') && nodup_keys ks'
  end.

(** A list of properties is an object when no key occurs twice. *)
Definition wf {V : Type} (o : t V) : bool := nodup_keys (keys o).

End JsObj.

(* ================================================================== *)
(** * Results, exceptions and the method monad *)
(* ================================================================== *)

(** The only exception the class can raise by itself: a property read on
    [undefined], or a call of a method the value does not have. *)
Inductive exn : Type :=
| TypeError.

Inductive Res (A : Type) : Type :=
| Ok (a : A)
| Throw (e : exn).
Arguments Ok {A} a.
Arguments Throw {A} e.

(** What [console.log] has printed so far. *)
Definition Console := list (JsObj.t jsstring).

Section Monad.

(** [S] is the instance ([this]). *)
Variable S : Type.

Definition M (A : Type) : Type := S * Console -> Res (A * (S * Console)).

Definition ret {A : Type} (a : A) : M A := fun w => Ok (a, w).

Definition bind {A B : Type} (m : M A) (f : A -> M B) : M B :=
  fun w =>
    match m w with
    | Ok (a, w') => f a w'
    | Throw e => Throw e
    end.

Definition throw {A : Type} (e : exn) : M A := fun _ => Throw e.

Definition get_this : M S := fun w => Ok (fst w, w).

Definition modify_this (f : S -> S) : M unit :=
  fun w => Ok (tt, (f (fst w), snd w)).

Definition console_log (row : JsObj.t jsstring) : M unit :=
  fun w => Ok (tt, (fst w, snd w ++ [row])).

End Monad.

Arguments ret {S A} a.
Arguments bind {S A B} m f.
Arguments throw {S A} e.
Arguments get_this {S}.
Arguments modify_this {S} f.
Arguments console_log {S} row.

Declare Scope js_scope.
Delimit Scope js_scope with js.
Notation "x <- c1 ;; c2" := (bind c1 (fun x => c2))
  (at level 61, c1 at next level, right associativity) : js_scope.
Notation "c1 ;; c2" := (bind c1 (fun _ => c2))
  (at level 61, right associativity) : js_scope.
Local Open Scope js_scope.

(** [l.forEach(f)] where the callback [f] updates a local variable of the
    enclosing function: the variable is threaded through the calls. With
    [unit] for the variable this is a plain [forEach]. *)
Fixpoint forEach {S A B : Type} (l : list A) (b : B) (f : B -> A -> M S B)
  : M S B :=
  match l with
  | [] => ret b
  | x :: l' => b' <- f b x ;; forEach l' b' f
  end.

(** [v.slice(0, -1)] on what a read gives: [undefined] has no
    properties, and the members of [Object.prototype] have no [slice]. *)
Definition slice_of {S : Type} (v : jsval jsstring) : M S jsstring :=
  match v with
  | Value s => ret (slice_0_m1 s)
  | Undefined | Builtin _ => throw TypeError
  end.

(** [v.forEach] on what a read gives: the array, or the exception
    ([undefined] has no properties, the members of [Object.prototype]
    have no [forEach]). *)
Definition array_of {S A : Type} (v : jsval (list A)) : M S (list A) :=
  match v with
  | Value l => ret l
  | Undefined | Builtin _ => throw TypeError
  end.

(* ================================================================== *)
(** * The collaborators of [GA] *)
(* ================================================================== *)

(** The static helpers of [StringUtils] that [GA] calls. Their module is
    not part of the sources at hand, so the class is verified against any
    implementation of them. [Rule] is the type of a validation rule; a
    rule is an object, so a rule that is present is truthy.
    [validateString] receives what the reads [csvLine[name]] and
    [validationRules[name]] give, which for a name such as [constructor]
    may be a member of [Object.prototype]; it is taken as returning a
    boolean on whatever it receives. *)
Class StringUtils (Rule : Type) : Type := {
  normalize : jsstring -> jsstring;
  replaceWhiteSpace : jsstring -> jsstring -> jsstring;
  validateString : jsval jsstring -> jsval Rule -> bool
}.

(** Modelled from the spec: the method [_isEmpty] that [GA] inherits from
    [AnalyticsTool], whose file is missing. The spec reads it as "the
    value is empty/missing": the read gives [undefined] or the empty
    string. A member of [Object.prototype] is neither. *)
Definition _isEmpty (v : jsval jsstring) : bool :=
  match v with
  | Undefined => true
  | Value [] => true
  | Value (_ :: _) => false
  | Builtin _ => false
  end.

(** The [separators] argument of the constructor: the field separator and
    the character that replaces white space. *)
Record Separators : Type := {
  sep_separator : jsstring;
  sep_spaceSeparator : jsstring
}.

(** What [buildedFields] returns: the object [utms] and the property
    ['url ga']. *)
Record BuildResult : Type := {
  utms : JsObj.t (jsval jsstring);
  url_ga : option jsstring
}.

(* ================================================================== *)
(** * The class [GA] *)
(* ================================================================== *)

Section GA.

Context {Rule : Type} {SU : StringUtils Rule}.

(** The instance. The first six properties are those of the base class
    [AnalyticsTool] that [GA] reads ([url] is the one [_buildUrl]
    assigns); the other five are declared in [GA]'s constructor. *)
Record GA : Type := mkGA {
  csvLine : JsObj.t jsstring;
  config : JsObj.t (list jsstring);
  separator : jsstring;
  spaceSeparator : jsstring;
  validationRules : JsObj.t Rule;
  url : option jsstring;
  _utms : JsObj.t jsstring;
  _hasValidationError : JsObj.t bool;
  _hasUndefinedParameterError : JsObj.t bool;
  _validationErrorMessage : JsObj.t jsstring;
  _undefinedParameterErroMessage : JsObj.t jsstring
}.

(** Assignments to the properties of [this]. *)
Definition set_url (v : option jsstring) (g : GA) : GA :=
  mkGA (csvLine g) (config g) (separator g) (spaceSeparator g)
    (validationRules g) v (_utms g) (_hasValidationError g)
    (_hasUndefinedParameterError g) (_validationErrorMessage g)
    (_undefinedParameterErroMessage g).

Definition set_utms (o : JsObj.t jsstring) (g : GA) : GA :=
  mkGA (csvLine g) (config g) (separator g) (spaceSeparator g)
    (validationRules g) (url g) o (_hasValidationError g)
    (_hasUndefinedParameterError g) (_validationErrorMessage g)
    (_undefinedParameterErroMessage g).

Definition set_hasValidationError (o : JsObj.t bool) (g : GA) : GA :=
  mkGA (csvLine g) (config g) (separator g) (spaceSeparator g)
    (validationRules g) (url g) (_utms g) o
    (_hasUndefinedParameterError g) (_validationErrorMessage g)
    (_undefinedParameterErroMessage g).

Definition set_hasUndefinedParameterError (o : JsObj.t bool) (g : GA) : GA :=
  mkGA (csvLine g) (config g) (separator g) (spaceSeparator g)
    (validationRules g) (url g) (_utms g) (_hasValidationError g)
    o (_validationErrorMessage g) (_undefinedParameterErroMessage g).

Definition set_validationErrorMessage (o : JsObj.t jsstring) (g : GA) : GA :=
  mkGA (csvLine g) (config g) (separator g) (spaceSeparator g)
    (validationRules g) (url g) (_utms g) (_hasValidationError g)
    (_hasUndefinedParameterError g) o (_undefinedParameterErroMessage g).

Definition set_undefinedParameterErroMessage (o : JsObj.t jsstring) (g : GA)
  : GA :=
  mkGA (csvLine g) (config g) (separator g) (spaceSeparator g)
    (validationRules g) (url g) (_utms g) (_hasValidationError g)
    (_hasUndefinedParameterError g) (_validationErrorMessage g) o.

(** [this._utms[utm] = v] and its siblings. *)
Definition assign_utms (utm v : jsstring) : M GA unit :=
  modify_this (fun g => set_utms (JsObj.set (_utms g) utm v) g).

Definition assign_hasValidationError (utm : jsstring) (b : bool)
  : M GA unit :=
  modify_this
    (fun g => set_hasValidationError
                (JsObj.set (_hasValidationError g) utm b) g).

Definition assign_hasUndefinedParameterError (utm : jsstring) (b : bool)
  : M GA unit :=
  modify_this
    (fun g => set_hasUndefinedParameterError
                (JsObj.set (_hasUndefinedParameterError g) utm b) g).

Definition assign_validationErrorMessage (utm v : jsstring) : M GA unit :=
  modify_this
    (fun g => set_validationErrorMessage
                (JsObj.set (_validationErrorMessage g) utm v) g).

Definition assign_undefinedParameterErroMessage (utm v : jsstring)
  : M GA unit :=
  modify_this
    (fun g => set_undefinedParameterErroMessage
                (JsObj.set (_undefinedParameterErroMessage g) utm v) g).

(** The text a column adds to an error message: [` ${column},`]. *)
Definition column_entry (column : jsstring) : jsstring :=
  lit " " ++ column ++ lit ",".

(** [this._validationErrorMessage[utm] += ` ${column},`]: the property
    is read, joined with the text and written back. *)
Definition append_validationErrorMessage (utm column : jsstring)
  : M GA unit :=
  this <- get_this ;;
  assign_validationErrorMessage utm
    (template_val (JsObj.lookup (_validationErrorMessage this) utm)
       ++ column_entry column).

Definition append_undefinedParameterErroMessage (utm column : jsstring)
  : M GA unit :=
  this <- get_this ;;
  assign_undefinedParameterErroMessage utm
    (template_val (JsObj.lookup (_undefinedParameterErroMessage this) utm)
       ++ column_entry column).

(** The callback of the constructor's [Object.keys(config).map]. *)
Definition init_utm (_ : unit) (utm : jsstring) : M GA unit :=
  assign_hasValidationError utm false ;;
  assign_hasUndefinedParameterError utm false ;;
  assign_validationErrorMessage utm (lit "Parâmetros incorretos:") ;;
  assign_undefinedParameterErroMessage utm
    (lit "Parâmetros não encontrados:").

(** [_hasErrorAtUtm]. *)
Definition _hasErrorAtUtm (utm : jsstring) : M GA bool :=
  this <- get_this ;;
  ret (truthy (JsObj.lookup (_hasUndefinedParameterError this) utm)
       || truthy (JsObj.lookup (_hasValidationError this) utm)).

(** [_errorMessageAtUtm]; [errorMessages] is the local array. *)
Definition _errorMessageAtUtm (utm : jsstring) : M GA jsstring :=
  this <- get_this ;;
  errorMessages <-
    (if truthy (JsObj.lookup (_hasUndefinedParameterError this) utm)
     then m <- slice_of
                 (JsObj.lookup (_undefinedParameterErroMessage this) utm) ;;
          ret [m]
     else ret []) ;;
  errorMessages <-
    (if truthy (JsObj.lookup (_hasValidationError this) utm)
     then m <- slice_of (JsObj.lookup (_validationErrorMessage this) utm) ;;
          ret (errorMessages ++ [m])
     else ret errorMessages) ;;
  ret (join (lit " - ") errorMessages).

(** [_hasAnyErrorAtUtms]; [hasError] is the local variable. *)
Definition _hasAnyErrorAtUtms : M GA bool :=
  this <- get_this ;;
  forEach (JsObj.keys (_utms this)) false
    (fun hasError utm =>
       e <- _hasErrorAtUtm utm ;;
       ret (if e then true else hasError)).

(** The sentinel of ['url ga']. *)
Definition correct_parameters : jsstring :=
  lit "Corrija os parâmetros para gerar a URL".

(** The getter [buildedFields]; [utms] is the local object. *)
Definition buildedFields : M GA BuildResult :=
  this <- get_this ;;
  utms <-
    forEach (JsObj.keys (_utms this)) JsObj.empty
      (fun utms utm =>
         e <- _hasErrorAtUtm utm ;;
         v <- (if e
               then m <- _errorMessageAtUtm utm ;; ret (Value m)
               else this <- get_this ;;
                    ret (JsObj.lookup (_utms this) utm)) ;;
         ret (JsObj.set utms utm v)) ;;
  anyError <- _hasAnyErrorAtUtms ;;
  this <- get_this ;;
  ret {| utms := utms;
         url_ga := if anyError then Some correct_parameters else url this |}.

(** The callback of [this.config[utm].forEach] in [_buildUtms];
    [utmString] is the local variable of the enclosing callback. The
    first branch ends in [return], so nothing after it runs. *)
Definition _buildUtms_column (utm : jsstring) (utmString column : jsstring)
  : M GA jsstring :=
  this <- get_this ;;
  let columnNormalized := normalize column in
  if _isEmpty (JsObj.lookup (csvLine this) columnNormalized) then
    assign_hasUndefinedParameterError utm true ;;
    append_undefinedParameterErroMessage utm column ;;
    ret utmString
  else
    (match JsObj.lookup (validationRules this) columnNormalized with
     | Undefined => ret tt
     | rule =>
         if negb (validateString
                    (JsObj.lookup (csvLine this) columnNormalized) rule)
         then assign_hasValidationError utm true ;;
              append_validationErrorMessage utm column
         else ret tt
     end) ;;
    ret (utmString
           ++ template_val (JsObj.lookup (csvLine this) columnNormalized)
           ++ separator this).

(** The callback of [Object.keys(this.config).forEach] in [_buildUtms]. *)
Definition _buildUtms_utm (_ : unit) (utm : jsstring) : M GA unit :=
  this <- get_this ;;
  columns <- array_of (JsObj.lookup (config this) utm) ;;
  utmString <- forEach columns [] (_buildUtms_column utm) ;;
  assign_utms utm
    (replaceWhiteSpace (slice_0_m1 (normalize utmString))
       (spaceSeparator this)).

(** [_buildUtms]. *)
Definition _buildUtms : M GA unit :=
  this <- get_this ;;
  console_log (csvLine this) ;;
  forEach (JsObj.keys (config this)) tt _buildUtms_utm.

(** [_buildUrl]; [utmString] is the local variable. *)
Definition _buildUrl : M GA unit :=
  this <- get_this ;;
  utmString <-
    forEach (JsObj.keys (_utms this)) []
      (fun utmString utm =>
         this <- get_this ;;
         ret (utmString ++ utm ++ lit "="
                ++ template_val (JsObj.lookup (_utms this) utm)
                ++ lit "&")) ;;
  this <- get_this ;;
  modify_this
    (set_url (Some (template_val (JsObj.lookup (csvLine this) (lit "url"))
                      ++ lit "?" ++ slice_0_m1 utmString))).

(** Modelled from the spec: the constructor of the base class
    [AnalyticsTool], whose file is missing. It keeps the row, the
    configuration, the two separators and the rules for the getters
    [csvLine], [config], [separator], [spaceSeparator] and
    [validationRules]; [url] is not assigned yet. [fresh_GA] is the
    instance after [super(...)] and the five [= {}] assignments of [GA]. *)
Definition fresh_GA (csv : JsObj.t jsstring) (cfg : JsObj.t (list jsstring))
    (separators : Separators) (rules : JsObj.t Rule) : GA :=
  mkGA csv cfg (sep_separator separators) (sep_spaceSeparator separators)
    rules None JsObj.empty JsObj.empty JsObj.empty JsObj.empty JsObj.empty.

(** The body of the constructor after that. *)
Definition constructor_body (config : JsObj.t (list jsstring)) : M GA unit :=
  forEach (JsObj.keys config) tt init_utm ;;
  _buildUtms ;;
  _buildUrl.

(** [new GA(csvLine, config, separators, validationRules)]. *)
Definition new_GA (csv : JsObj.t jsstring) (cfg : JsObj.t (list jsstring))
    (separators : Separators) (rules : JsObj.t Rule) (out : Console)
  : Res (GA * Console) :=
  match constructor_body cfg (fresh_GA csv cfg separators rules, out) with
  | Ok (_, w) => Ok w
  | Throw e => Throw e
  end.

(** [new GA(...).buildedFields]: one build. *)
Definition build (csv : JsObj.t jsstring) (cfg : JsObj.t (list jsstring))
    (separators : Separators) (rules : JsObj.t Rule) (out : Console)
  : Res (BuildResult * Console) :=
  match new_GA csv cfg separators rules out with
  | Ok w =>
      match buildedFields w with
      | Ok (r, (_, out')) => Ok (r, out')
      | Throw e => Throw e
      end
  | Throw e => Throw e
  end.

End GA.


Arguments GA Rule : clear implicits.

(* ================================================================== *)
(** * What a build is expected to return *)
(* ================================================================== *)

(** The functions of this section describe a [BuildResult] directly from
    the inputs, parameter by parameter, without any instance state. The
    theorems below compare the class with them. *)
Section Expected.

Context {Rule : Type} {SU : StringUtils Rule}.

Variable csv : JsObj.t jsstring.
Variable rules : JsObj.t Rule.
Variable separators : Separators.

(** What the row gives for a column of the configuration: the read
    [csvLine[name]] under the normalized name. *)
Definition cell (column : jsstring) : jsval jsstring :=
  JsObj.lookup csv (normalize column).

(** The read of the column gives [undefined] or the empty string. *)
Definition is_missing (column : jsstring) : bool := _isEmpty (cell column).

Definition is_present (column : jsstring) : bool := negb (is_missing column).

(** The read [validationRules[name]] gives something, and the validator
    rejects the row's value against it. *)
Definition breaks_rule (column : jsstring) : bool :=
  match JsObj.lookup rules (normalize column) with
  | Undefined => false
  | rule => negb (validateString (cell column) rule)
  end.

(** The column has a present value that fails its rule. *)
Definition is_invalid (column : jsstring) : bool :=
  is_present column && breaks_rule column.

(** The values of the columns, each followed by the field separator. *)
Definition joined_values (columns : list jsstring) : jsstring :=
  flat_map (fun c => template_val (cell c) ++ sep_separator separators)
    columns.

(** The composed value of a parameter over the given columns: the joined
    values normalized, the last code unit (the separator) stripped, white
    space replaced. *)
Definition composed_value (columns : list jsstring) : jsstring :=
  replaceWhiteSpace (slice_0_m1 (normalize (joined_values columns)))
    (sep_spaceSeparator separators).

(** Display names listed with commas: [" a, b, c"]. *)
Fixpoint comma_list (columns : list jsstring) : jsstring :=
  match columns with
  | [] => []
  | [c] => lit " " ++ c
  | c :: cs => lit " " ++ c ++ lit "," ++ comma_list cs
  end.

Definition undefined_message (columns : list jsstring) : jsstring :=
  lit "Parâmetros não encontrados:" ++ comma_list (filter is_missing columns).

Definition validation_message (columns : list jsstring) : jsstring :=
  lit "Parâmetros incorretos:" ++ comma_list (filter is_invalid columns).

Definition has_undefined_error (columns : list jsstring) : bool :=
  existsb is_missing columns.

Definition has_validation_error (columns : list jsstring) : bool :=
  existsb is_invalid columns.

Definition has_error (columns : list jsstring) : bool :=
  has_undefined_error columns || has_validation_error columns.

(** The error text of a parameter: the messages of the kinds of error it
    has, joined by [" - "]. *)
Definition error_message (columns : list jsstring) : jsstring :=
  join (lit " - ")
    ((if has_undefined_error columns then [undefined_message columns] else [])
     ++ (if has_validation_error columns then [validation_message columns]
         else [])).

(** What [utms] shows for a parameter. *)
Definition shown_value (columns : list jsstring) : jsstring :=
  if has_error columns then error_message columns else composed_value columns.

(** The [param=value] pairs in the order of the configuration. *)
Definition url_pairs (cfg : JsObj.t (list jsstring)) : list jsstring :=
  map (fun e => fst e ++ lit "=" ++ composed_value (snd e)) cfg.

(** [row.url + "?" +] the pairs joined by [&]. ([url] is no member of
    [Object.prototype]: the read of [csvLine.url] gives the own property
    or [undefined].) *)
Definition composed_url (cfg : JsObj.t (list jsstring)) : jsstring :=
  template (JsObj.get csv (lit "url")) ++ lit "?"
    ++ join (lit "&") (url_pairs cfg).

(** The values of the columns joined by the field separator. *)
Definition separated_values (columns : list jsstring) : jsstring :=
  join (sep_separator separators)
    (map (fun c => template_val (cell c)) columns).

Definition any_error (cfg : JsObj.t (list jsstring)) : bool :=
  existsb (fun e => has_error (snd e)) cfg.

(** The result for the parameters of [cfg], when each of them gets its
    properties. *)
Definition expected_result (cfg : JsObj.t (list jsstring)) : BuildResult :=
  {| utms := map (fun e => (fst e, Value (shown_value (snd e)))) cfg;
     url_ga := Some (if any_error cfg then correct_parameters
                     else composed_url cfg) |}.

(** ** The instance a constructor call leaves behind *)

(** The value kept in [_utms]: composed from the columns that are present,
    whether or not they pass their rule. *)
Definition kept_value (columns : list jsstring) : jsstring :=
  composed_value (filter is_present columns).

(** The messages as the properties hold them, before [slice]. *)
Definition raw_undefined_message (columns : list jsstring) : jsstring :=
  lit "Parâmetros não encontrados:"
    ++ flat_map column_entry (filter is_missing columns).

Definition raw_validation_message (columns : list jsstring) : jsstring :=
  lit "Parâmetros incorretos:"
    ++ flat_map column_entry (filter is_invalid columns).

(** An object with the keys of the configuration. *)
Definition per_utm {V : Type} (f : list jsstring -> V)
    (cfg : JsObj.t (list jsstring)) : JsObj.t V :=
  map (fun e => (fst e, f (snd e))) cfg.

Definition kept_url (cfg : JsObj.t (list jsstring)) : jsstring :=
  template (JsObj.get csv (lit "url")) ++ lit "?"
    ++ slice_0_m1
         (flat_map
            (fun e => fst e ++ lit "=" ++ kept_value (snd e) ++ lit "&") cfg).

(** The instance for the configuration [cfg]: the five objects hold the
    parameters that can be written, all but [__proto__]. *)
Definition built_GA (cfg : JsObj.t (list jsstring)) : GA Rule :=
  mkGA csv cfg (sep_separator separators) (sep_spaceSeparator separators)
    rules (Some (kept_url (JsObj.settable cfg)))
    (per_utm kept_value (JsObj.settable cfg))
    (per_utm has_validation_error (JsObj.settable cfg))
    (per_utm has_undefined_error (JsObj.settable cfg))
    (per_utm raw_validation_message (JsObj.settable cfg))
    (per_utm raw_undefined_message (JsObj.settable cfg)).

End Expected.

(* ================================================================== *)
(** * A concrete [StringUtils] *)
(* ================================================================== *)

Module Sample.

(** Lower case of a code unit: ASCII capitals, and the accented Latin-1
    letters reduced to their base letter. *)
Definition fold_unit (u : code_unit) : code_unit :=
  if ((65 <=? u) && (u <=? 90))%N then (u + 32)%N
  else
    let v := if ((192 <=? u) && (u <=? 222))%N then (u + 32)%N else u in
    if ((224 <=? v) && (v <=? 229))%N then 97%N
    else if (v =? 231)%N then 99%N
    else if ((232 <=? v) && (v <=? 235))%N then 101%N
    else if ((236 <=? v) && (v <=? 239))%N then 105%N
    else if (v =? 241)%N then 110%N
    else if ((242 <=? v) && (v <=? 246))%N then 111%N
    else if ((249 <=? v) && (v <=? 252))%N then 117%N
    else if ((v =? 253) || (v =? 255))%N then 121%N
    else v.

(** A combining diacritical mark (U+0300 to U+036F). *)
Definition is_mark (u : code_unit) : bool := ((768 <=? u) && (u <=? 879))%N.

Definition is_space (u : code_unit) : bool :=
  ((u =? 32) || ((9 <=? u) && (u <=? 13)) || (u =? 160))%N.

(** Modelled from the spec: [StringUtils.normalize], whose file is
    missing; "case/diacritic-insensitive canonicalization": letters in
    lower case and without their diacritics. *)
Definition normalize (s : jsstring) : jsstring :=
  map fold_unit (filter (fun u => negb (is_mark u)) s).

(** Modelled from the spec: [StringUtils.replaceWhiteSpace], whose file is
    missing; "replace whitespace with spaceReplacement". *)
Definition replaceWhiteSpace (s replacer : jsstring) : jsstring :=
  flat_map (fun u => if is_space u then replacer else [u]) s.

(** Modelled from the spec: [StringUtils.validateString], whose file is
    missing; "a per-column constraint a value must satisfy to be
    accepted", here the list of the accepted values. What is no list (a
    member of [Object.prototype] read in the place of a rule) constrains
    nothing. *)
Definition validateString (v : jsval jsstring) (rule : jsval (list jsstring))
  : bool :=
  match rule with
  | Value accepted =>
      match v with
      | Value s => existsb (jsstring_eqb s) accepted
      | Undefined | Builtin _ => false
      end
  | Undefined | Builtin _ => true
  end.

#[global] Instance utils : StringUtils (list jsstring) :=
  Build_StringUtils (list jsstring) normalize replaceWhiteSpace validateString.


Definition separators : Separators :=
  {| sep_separator := lit "_"; sep_spaceSeparator := lit "-" |}.

(** The row and the configuration of the spec's scenario. *)
Definition row : JsObj.t jsstring :=
  [(lit "url", lit "http://x.com");
   (lit "source", lit "google");
   (lit "medium", lit "cpc")].

Definition cfg : JsObj.t (list jsstring) :=
  [(lit "utm_source", [lit "source"]); (lit "utm_medium", [lit "medium"])].

Definition no_rules : JsObj.t (list jsstring) := [].

(** The same row without [medium], and one without [url]. *)
Definition row_no_medium : JsObj.t jsstring :=
  [(lit "url", lit "http://x.com"); (lit "source", lit "google")].

Definition row_no_url : JsObj.t jsstring :=
  [(lit "source", lit "google"); (lit "medium", lit "cpc")].

(** A configuration with display names that differ from their normalized
    names, two columns for one parameter, and rules on two columns. *)
Definition row2 : JsObj.t jsstring :=
  [(lit "url", lit "http://x.com");
   (lit "veiculo", lit "Google Ads");
   (lit "tipo de compra", lit "CPC");
   (lit "campanha", lit "Verão 2021")].

Definition cfg2 : JsObj.t (list jsstring) :=
  [(lit "utm_source", [lit "Veículo"; lit "Tipo de Compra"]);
   (lit "utm_medium", [lit "Período"; lit "Tipo de Compra"; lit "Formato"]);
   (lit "utm_campaign", [lit "Campanha"])].

Definition rules2 : JsObj.t (list jsstring) :=
  [(lit "tipo de compra", [lit "cpa"; lit "cpm"]);
   (lit "campanha", [lit "Verão 2021"])].

(** A configuration whose columns are all present in [row2]. *)
Definition cfg3 : JsObj.t (list jsstring) :=
  [(lit "utm_source", [lit "Veículo"; lit "Tipo de Compra"]);
   (lit "utm_campaign", [lit "Campanha"])].


Definition cfg2_permuted : JsObj.t (list jsstring) :=
  [(lit "utm_campaign", [lit "Campanha"]);
   (lit "utm_source", [lit "Veículo"; lit "Tipo de Compra"]);
   (lit "utm_medium", [lit "Período"; lit "Tipo de Compra"; lit "Formato"])].

Definition cfg3_permuted : JsObj.t (list jsstring) :=
  [(lit "utm_campaign", [lit "Campanha"]);
   (lit "utm_source", [lit "Veículo"; lit "Tipo de Compra"])].


Definition cfg_proto_missing : JsObj.t (list jsstring) :=
  [(lit "__proto__", [lit "medium"]); (lit "utm_source", [lit "source"])].

Definition cfg_source : JsObj.t (list jsstring) :=
  [(lit "utm_source", [lit "source"])].


End Sample.

(* ================================================================== *)
(** * Notions used by the statements *)
(* ================================================================== *)

(** Parameter [utm] has an error flag set in the instance: what
    [_hasErrorAtUtm] tests. *)
Definition flag_set {Rule : Type} (g : GA Rule) (utm : jsstring) : bool :=
  truthy (JsObj.lookup (_hasUndefinedParameterError g) utm)
  || truthy (JsObj.lookup (_hasValidationError g) utm).

(** The reading of the accumulator rule under which a column's text is
    appended only when the column passed the missing-value check and the
    validation check: whenever the callback changes [utmString], the
    column is present and does not break its rule. *)
Definition appends_only_valid_columns {Rule : Type} {SU : StringUtils Rule}
    (g : GA Rule) (out : Console) (utm utmString column : jsstring) : Prop :=
  forall utmString' w,
    _buildUtms_column utm utmString column (g, out) = Ok (utmString', w) ->
    utmString' <> utmString ->
    is_present (csvLine g) column = true
    /\ breaks_rule (csvLine g) (validationRules g) column = false.

(** Two reads of [buildedFields] on one instance. *)
Definition read_twice {Rule : Type} {SU : StringUtils Rule}
  : M (GA Rule) (BuildResult * BuildResult) :=
  r1 <- buildedFields ;;
  r2 <- buildedFields ;;
  ret (r1, r2).

(** ** The instance while the constructor runs *)

Section Stages.

Context {Rule : Type} {SU : StringUtils Rule}.

Variable csv : JsObj.t jsstring.
Variable rules : JsObj.t Rule.
Variable separators : Separators.
Variable cfg : JsObj.t (list jsstring).

(** In the first loop of the constructor, after the keys of [done]. *)
Definition seeded (done : JsObj.t (list jsstring)) : GA Rule :=
  mkGA csv cfg (sep_separator separators) (sep_spaceSeparator separators)
    rules None JsObj.empty
    (per_utm (fun _ => false) done)
    (per_utm (fun _ => false) done)
    (per_utm (fun _ => lit "Parâmetros incorretos:") done)
    (per_utm (fun _ => lit "Parâmetros não encontrados:") done).

(** In the loop of [_buildUtms], inside the column loop of parameter
    [utm]: the parameters of [done] are finished, the columns [seen] of
    [utm] are processed, the parameters of [todo] are untouched. *)
Definition in_columns (done todo : JsObj.t (list jsstring)) (utm : jsstring)
    (seen : list jsstring) : GA Rule :=
  mkGA csv cfg (sep_separator separators) (sep_spaceSeparator separators)
    rules None
    (per_utm (kept_value csv separators) done)
    (per_utm (has_validation_error csv rules) done
       ++ (utm, has_validation_error csv rules seen)
       :: per_utm (fun _ => false) todo)
    (per_utm (has_undefined_error csv) done
       ++ (utm, has_undefined_error csv seen)
       :: per_utm (fun _ => false) todo)
    (per_utm (raw_validation_message csv rules) done
       ++ (utm, raw_validation_message csv rules seen)
       :: per_utm (fun _ => lit "Parâmetros incorretos:") todo)
    (per_utm (raw_undefined_message csv) done
       ++ (utm, raw_undefined_message csv seen)
       :: per_utm (fun _ => lit "Parâmetros não encontrados:") todo).

(** In the loop of [_buildUtms], between two parameters. *)
Definition staged (done todo : JsObj.t (list jsstring)) : GA Rule :=
  mkGA csv cfg (sep_separator separators) (sep_spaceSeparator separators)
    rules None
    (per_utm (kept_value csv separators) done)
    (per_utm (has_validation_error csv rules) done
       ++ per_utm (fun _ => false) todo)
    (per_utm (has_undefined_error csv) done
       ++ per_utm (fun _ => false) todo)
    (per_utm (raw_validation_message csv rules) done
       ++ per_utm (fun _ => lit "Parâmetros incorretos:") todo)
    (per_utm (raw_undefined_message csv) done
       ++ per_utm (fun _ => lit "Parâmetros não encontrados:") todo).

End Stages.

(** ** What the loops preserve *)



(** None of the objects of the instance has an own property
    [__proto__]. *)
Definition holds_no_proto {Rule : Type} (g : GA Rule) : Prop :=
  ~ In proto_key (JsObj.keys (_utms g))
  /\ ~ In proto_key (JsObj.keys (_hasValidationError g))
  /\ ~ In proto_key (JsObj.keys (_hasUndefinedParameterError g))
  /\ ~ In proto_key (JsObj.keys (_validationErrorMessage g))
  /\ ~ In proto_key (JsObj.keys (_undefinedParameterErroMessage g)).

(** The value a run returns, if it returns. *)
Definition value_of {A W : Type} (r : Res (A * W)) : option A :=
  match r with
  | Ok (a, _) => Some a
  | Throw _ => None
  end.

(** The code unit of [?]. *)
Definition question_mark : code_unit := 63%N.

Arguments lit : simpl never.
Arguments proto_key : simpl never.
Arguments builtin_text : simpl never.
Arguments column_entry : simpl never.
Arguments correct_parameters : simpl never.
Arguments JsObj.set : simpl never.
Arguments JsObj.lookup : simpl never.
Arguments JsObj.settable : simpl never.

(* ================================================================== *)
(** * The class [UserDAO]: the queries [getUserId] and [getUser] *)
(* ================================================================== *)

(** Both methods query the collection for the documents whose [email] is
    the one given and hand the [QuerySnapshot] to a [then] callback; their
    [catch] handler throws the error again. The model is the callback on
    the settled query: the snapshot is the list of its documents in
    [forEach] order. *)

(** A value that is thrown: an [Error] made by the class, with its
    message, or an error raised by Firestore or bcrypt. *)
Inductive dao_error (Foreign : Type) : Type :=
| Error (message : jsstring)
| External (e : Foreign).
Arguments Error {Foreign} message.
Arguments External {Foreign} e.

(** A settled promise, or a call that returns or throws. *)
Inductive outcome (E A : Type) : Type :=
| Resolved (a : A)
| Rejected (e : E).
Arguments Resolved {E A} a.
Arguments Rejected {E A} e.

(** A [QueryDocumentSnapshot]: [documentSnapshot.ref.path] and the fields
    that [documentSnapshot.get(name)] reads. *)
Record DocumentSnapshot (Field : Type) : Type := {
  ref_path : jsstring;
  doc_fields : JsObj.t Field
}.
Arguments ref_path {Field} d.
Arguments doc_fields {Field} d.

(** The code unit of [/]. *)
Definition slash : code_unit := 47%N.

Definition no_slash (s : jsstring) : bool :=
  forallb (fun u => negb (u =? slash)%N) s.

(** [path.match(new RegExp('[^/]+$'))]: the match is tried at each index
    from the left; at an index it succeeds when the rest of the string is
    not empty and holds no [/], and the matched text, [searchId[0]], is
    that rest. [None] is [null]. *)
Fixpoint match_last_segment (path : jsstring) : option jsstring :=
  match path with
  | [] => None
  | _ :: rest => if no_slash path then Some path else match_last_segment rest
  end.

(** [querySnapshot.forEach(f)]; [b] is the local variable of the enclosing
    function that the callback assigns. An exception in the callback ends
    the loop. *)
Fixpoint forEach_document {E Field B : Type}
    (docs : list (DocumentSnapshot Field)) (b : B)
    (f : B -> DocumentSnapshot Field -> outcome E B) : outcome E B :=
  match docs with
  | [] => Resolved b
  | d :: docs' =>
      match f b d with
      | Resolved b' => forEach_document docs' b' f
      | Rejected e => Rejected e
      end
  end.

Section UserDAO.

Context {Field User Foreign : Type}.

(** [bcrypt.compareSync(data, encrypted)], which returns a boolean or
    throws. *)
Variable compareSync :
  option jsstring -> option Field -> outcome (dao_error Foreign) bool.

(** [new User(id, permission, company, email, activate, agency)]; the
    class [User] is not among the sources. *)
Variable new_User :
  jsstring -> option Field -> option Field -> option Field -> option Field ->
  option Field -> User.

(** [this._password]; the constructor's argument is optional. *)
Variable _password : option jsstring.

(** The callback of [querySnapshot.forEach] in [getUserId]; what it
    returns is the value of its [return] statement. *)
Definition getUserId_document (documentSnapshot : DocumentSnapshot Field)
  : outcome (dao_error Foreign) jsstring :=
  let searchId := match_last_segment (ref_path documentSnapshot) in
  match compareSync _password
          (JsObj.get (doc_fields documentSnapshot) (lit "password")) with
  | Rejected e => Rejected e
  | Resolved validatePassword =>
      if negb validatePassword
      then Rejected (Error (lit "Email ou senha incorreto(s)!"))
      else
        match searchId with
        | Some id => Resolved id
        | None => Rejected (Error (lit "Falha ao recuperar o ID do usuário"))
        end
  end.

(** [getUserId], from the settled query. [forEach] drops what its
    callback returns, and the [then] callback has no [return] of its own:
    the promise resolves with [undefined] ([None]). *)
Definition getUserId
    (query : outcome (dao_error Foreign) (list (DocumentSnapshot Field)))
  : outcome (dao_error Foreign) (option jsstring) :=
  match query with
  | Rejected err => Rejected err
  | Resolved querySnapshot =>
      if Nat.ltb 0 (List.length querySnapshot) then
        match forEach_document querySnapshot tt
                (fun _ documentSnapshot =>
                   match getUserId_document documentSnapshot with
                   | Resolved _ => Resolved tt
                   | Rejected e => Rejected e
                   end) with
        | Resolved _ => Resolved None
        | Rejected err => Rejected err
        end
      else Rejected (Error (lit "ID não encontrado!"))
  end.

(** The callback of [querySnapshot.forEach] in [getUser]; [user] is the
    local variable it assigns. [new Error()] has the empty message. *)
Definition getUser_document (user : option User)
    (documentSnapshot : DocumentSnapshot Field)
  : outcome (dao_error Foreign) (option User) :=
  match match_last_segment (ref_path documentSnapshot) with
  | Some id =>
      match compareSync _password
              (JsObj.get (doc_fields documentSnapshot) (lit "password")) with
      | Rejected e => Rejected e
      | Resolved validatePassword =>
          if negb validatePassword
          then Rejected (Error (lit "Email ou senha incorreto(s)!"))
          else
            Resolved
              (Some
                 (new_User id
                    (JsObj.get (doc_fields documentSnapshot) (lit "permission"))
                    (JsObj.get (doc_fields documentSnapshot) (lit "company"))
                    (JsObj.get (doc_fields documentSnapshot) (lit "email"))
                    (JsObj.get (doc_fields documentSnapshot) (lit "activate"))
                    (JsObj.get (doc_fields documentSnapshot) (lit "agency"))))
      end
  | None => Rejected (Error [])
  end.

(** [getUser], from the settled query. *)
Definition getUser
    (query : outcome (dao_error Foreign) (list (DocumentSnapshot Field)))
  : outcome (dao_error Foreign) (option User) :=
  match query with
  | Rejected err => Rejected err
  | Resolved querySnapshot =>
      if Nat.ltb 0 (List.length querySnapshot)
      then forEach_document querySnapshot None getUser_document
      else Rejected (Error (lit "Email ou senha incorreto(s)!"))
  end.

(** A document passes the checks of both callbacks: the password matches
    and the path has a last segment. *)
Definition document_accepted (d : DocumentSnapshot Field) : Prop :=
  compareSync _password (JsObj.get (doc_fields d) (lit "password"))
  = Resolved true
  /\ match_last_segment (ref_path d) <> None.

End UserDAO.

(** Stand-ins for the examples: fields are strings, a user is the tuple of
    the constructor's arguments, and the password check compares the
    password with the stored field and throws when either is missing. *)
Module SampleDAO.

Definition compareSync (data encrypted : option jsstring)
  : outcome (dao_error unit) bool :=
  match data, encrypted with
  | Some d, Some e => Resolved (jsstring_eqb d e)
  | _, _ => Rejected (External tt)
  end.

Definition new_User (id : jsstring)
    (permission company email activate agency : option jsstring) :=
  (id, permission, company, email, activate, agency).

Definition alice : DocumentSnapshot jsstring :=
  {| ref_path := lit "tokens/a1";
     doc_fields := [(lit "email", lit "a@x.com");
                    (lit "password", lit "secret");
                    (lit "permission", lit "admin")] |}.

Definition alice_again : DocumentSnapshot jsstring :=
  {| ref_path := lit "tokens/a2";
     doc_fields := [(lit "email", lit "a@x.com");
                    (lit "password", lit "secret");
                    (lit "permission", lit "user")] |}.

Definition no_segment : DocumentSnapshot jsstring :=
  {| ref_path := lit "tokens/";
     doc_fields := [(lit "password", lit "other")] |}.

End SampleDAO.

(* ================================================================== *)
(** * Strings and objects: basic facts *)
(* ================================================================== *)

Lemma jsstring_eqb_eq (a b : jsstring) : jsstring_eqb a b = true <-> a = b.
Proof.
  revert b; induction a as [|x a IH]; intros [|y b]; simpl; split;
    try congruence; try reflexivity.
  - intros H. apply andb_true_iff in H as [Hx Hab].
    apply N.eqb_eq in Hx. apply IH in Hab. congruence.
  - intros H. injection H as -> ->.
    rewrite N.eqb_refl. simpl. now apply IH.
Qed.

Lemma jsstring_eqb_refl (a : jsstring) : jsstring_eqb a a = true.
Proof. now apply jsstring_eqb_eq. Qed.

Lemma jsstring_eqb_neq (a b : jsstring) : a <> b -> jsstring_eqb a b = false.
Proof.
  intros H. destruct (jsstring_eqb a b) eqn:E; [|reflexivity].
  apply jsstring_eqb_eq in E. contradiction.
Qed.

Lemma mem_In (k : jsstring) (ks : list jsstring) :
  JsObj.mem k ks = true <-> In k ks.
Proof.
  induction ks as [|k' ks IH]; simpl.
  - split; [discriminate | tauto].
  - rewrite orb_true_iff, jsstring_eqb_eq, IH. tauto.
Qed.

Lemma nodup_keys_NoDup (ks : list jsstring) :
  JsObj.nodup_keys ks = true <-> NoDup ks.
Proof.
  induction ks as [|k ks IH]; simpl.
  - split; [constructor | reflexivity].
  - rewrite andb_true_iff, negb_true_iff, IH. split.
    + intros [Hm Hn]. constructor; [|assumption].
      intros Hin. apply mem_In in Hin. congruence.
    + intros H. inversion H as [|? ? Hnotin Hnd]; subst. split; [|assumption].
      destruct (JsObj.mem k ks) eqn:E; [|reflexivity].
      apply mem_In in E. contradiction.
Qed.

Lemma wf_NoDup {V : Type} (o : JsObj.t V) :
  JsObj.wf o = true <-> NoDup (JsObj.keys o).
Proof. apply nodup_keys_NoDup. Qed.

Section ObjectFacts.

Context {V : Type}.
Implicit Types (o l r : JsObj.t V) (k : jsstring) (v : V).

Lemma keys_app l r : JsObj.keys (l ++ r) = JsObj.keys l ++ JsObj.keys r.
Proof. apply map_app. Qed.

Lemma get_skip l r k :
  ~ In k (JsObj.keys l) -> JsObj.get (l ++ r) k = JsObj.get r k.
Proof.
  induction l as [|[k' v'] l IH]; simpl; intros H; [reflexivity|].
  rewrite jsstring_eqb_neq by tauto. apply IH. tauto.
Qed.

Lemma get_focus l r k v :
  ~ In k (JsObj.keys l) -> JsObj.get (l ++ (k, v) :: r) k = Some v.
Proof.
  intros H. rewrite get_skip by assumption. simpl.
  now rewrite jsstring_eqb_refl.
Qed.

Lemma put_focus l r k v v' :
  ~ In k (JsObj.keys l) ->
  JsObj.put (l ++ (k, v) :: r) k v' = l ++ (k, v') :: r.
Proof.
  induction l as [|[k0 v0] l IH]; simpl; intros H.
  - now rewrite jsstring_eqb_refl.
  - rewrite jsstring_eqb_neq by tauto. f_equal. apply IH. tauto.
Qed.

Lemma put_fresh l k v :
  ~ In k (JsObj.keys l) -> JsObj.put l k v = l ++ [(k, v)].
Proof.
  induction l as [|[k0 v0] l IH]; simpl; intros H; [reflexivity|].
  rewrite jsstring_eqb_neq by tauto. f_equal. apply IH. tauto.
Qed.

(** A write under an own key, or under a key other than [__proto__], is a
    plain write; a write under [__proto__] on an object that has no such
    own property leaves the object as it is. *)
Lemma set_own o k v : In k (JsObj.keys o) -> JsObj.set o k v = JsObj.put o k v.
Proof.
  intros H. unfold JsObj.set. apply mem_In in H. rewrite H.
  now rewrite andb_false_r.
Qed.

Lemma set_plain o k v : k <> proto_key -> JsObj.set o k v = JsObj.put o k v.
Proof.
  intros H. unfold JsObj.set. now rewrite (jsstring_eqb_neq k proto_key H).
Qed.

Lemma set_proto o v :
  ~ In proto_key (JsObj.keys o) -> JsObj.set o proto_key v = o.
Proof.
  intros H. unfold JsObj.set. rewrite jsstring_eqb_refl.
  destruct (JsObj.mem proto_key (JsObj.keys o)) eqn:E; [|reflexivity].
  apply mem_In in E. contradiction.
Qed.

Lemma set_focus l r k v v' :
  ~ In k (JsObj.keys l) ->
  JsObj.set (l ++ (k, v) :: r) k v' = l ++ (k, v') :: r.
Proof.
  intros H. rewrite set_own; [now apply put_focus|].
  rewrite keys_app. apply in_or_app. right. now left.
Qed.

Lemma set_fresh l k v :
  k <> proto_key ->
  ~ In k (JsObj.keys l) -> JsObj.set l k v = l ++ [(k, v)].
Proof. intros Hk H. rewrite set_plain by assumption. now apply put_fresh. Qed.

(** A read that finds an own property gives it; a read under a name that
    [Object.prototype] does not have ends at the object. *)
Lemma lookup_own o k v : JsObj.get o k = Some v -> JsObj.lookup o k = Value v.
Proof. unfold JsObj.lookup. now intros ->. Qed.

Lemma lookup_plain o k :
  JsObj.inherited k = false ->
  JsObj.lookup o k
  = match JsObj.get o k with Some v => Value v | None => Undefined end.
Proof.
  unfold JsObj.lookup. intros ->. now destruct (JsObj.get o k).
Qed.

Lemma lookup_Value o k v :
  JsObj.lookup o k = Value v <-> JsObj.get o k = Some v.
Proof.
  unfold JsObj.lookup. destruct (JsObj.get o k) as [v'|].
  - split; intros [= ->]; reflexivity.
  - destruct (JsObj.inherited k); split; discriminate.
Qed.

Lemma lookup_proto o :
  ~ In proto_key (JsObj.keys o) ->
  JsObj.lookup o proto_key = Builtin proto_key.
Proof.
  intros H. unfold JsObj.lookup.
  destruct (JsObj.get o proto_key) as [v|] eqn:E.
  - exfalso. apply H. clear H. revert E.
    induction o as [|[k0 v0] o IH]; simpl; [discriminate|].
    destruct (jsstring_eqb k0 proto_key) eqn:Ek.
    + apply jsstring_eqb_eq in Ek. now left.
    + intros E. right. now apply IH.
  - reflexivity.
Qed.

(** Reads that agree on own properties agree. *)
Lemma lookup_same_get {W : Type} o (o' : JsObj.t W) k (f : V -> W) :
  JsObj.get o' k = option_map f (JsObj.get o k) ->
  JsObj.lookup o' k
  = match JsObj.lookup o k with
    | Value v => Value (f v)
    | Undefined => Undefined
    | Builtin b => Builtin b
    end.
Proof.
  unfold JsObj.lookup. intros ->.
  destruct (JsObj.get o k); cbn [option_map]; [reflexivity|].
  destruct (JsObj.inherited k); reflexivity.
Qed.

Lemma get_Some_In o k v : JsObj.get o k = Some v -> In (k, v) o.
Proof.
  induction o as [|[k0 v0] o IH]; simpl; [discriminate|].
  destruct (jsstring_eqb k0 k) eqn:E.
  - apply jsstring_eqb_eq in E. intros [= ->]. left. congruence.
  - intros H. right. now apply IH.
Qed.

Lemma In_get o k v :
  NoDup (JsObj.keys o) -> In (k, v) o -> JsObj.get o k = Some v.
Proof.
  intros Hnd Hin. apply in_split in Hin as (l & r & ->).
  apply get_focus. rewrite keys_app in Hnd. simpl in Hnd.
  apply NoDup_remove_2 in Hnd. intros H. apply Hnd. apply in_or_app. now left.
Qed.

Lemma get_Permutation o o' k :
  NoDup (JsObj.keys o) -> Permutation o o' ->
  JsObj.get o k = JsObj.get o' k.
Proof.
  intros Hnd Hp.
  assert (Hnd' : NoDup (JsObj.keys o')).
  { eapply Permutation_NoDup; [|exact Hnd]. now apply Permutation_map. }
  destruct (JsObj.get o k) as [v|] eqn:E.
  - symmetry. apply In_get; [assumption|].
    eapply Permutation_in; [exact Hp|]. now apply get_Some_In.
  - destruct (JsObj.get o' k) as [v'|] eqn:E'; [|reflexivity].
    apply get_Some_In in E'. apply Permutation_sym in Hp.
    eapply Permutation_in in E'; [|exact Hp].
    rewrite (In_get _ _ _ Hnd E') in E. discriminate.
Qed.

End ObjectFacts.

Lemma split_fresh {V : Type} (done todo : JsObj.t V) k v :
  NoDup (JsObj.keys (done ++ (k, v) :: todo)) -> ~ In k (JsObj.keys done).
Proof.
  rewrite keys_app. simpl. intros H Hin.
  apply NoDup_remove_2 in H. apply H. apply in_or_app. now left.
Qed.

(** Reading every key of an object is reading its properties in order. *)
Lemma flat_map_keys {V X : Type} (F : jsstring -> jsval V -> list X)
    (o : JsObj.t V) :
  NoDup (JsObj.keys o) ->
  flat_map (fun k => F k (JsObj.lookup o k)) (JsObj.keys o)
  = flat_map (fun e => F (fst e) (Value (snd e))) o.
Proof.
  intros Hnd. unfold JsObj.keys.
  rewrite !flat_map_concat_map, map_map. f_equal.
  apply map_ext_in. intros [k v] Hin. simpl.
  now rewrite (lookup_own _ _ _ (In_get _ _ _ Hnd Hin)).
Qed.

(** The objects of a loop of writes hold no [__proto__]. *)
Lemma settable_In {V : Type} (o : JsObj.t V) k v :
  In (k, v) (JsObj.settable o) <-> In (k, v) o /\ k <> proto_key.
Proof.
  unfold JsObj.settable. rewrite filter_In. cbn [fst].
  rewrite negb_true_iff. split; intros [H1 H2]; split; try assumption.
  - intros ->. now rewrite jsstring_eqb_refl in H2.
  - now apply jsstring_eqb_neq.
Qed.

Lemma settable_keys {V : Type} (o : JsObj.t V) :
  JsObj.keys (JsObj.settable o)
  = filter (fun k => negb (jsstring_eqb k proto_key)) (JsObj.keys o).
Proof.
  unfold JsObj.settable, JsObj.keys.
  induction o as [|[k v] o IH]; cbn; [reflexivity|].
  destruct (jsstring_eqb k proto_key); cbn; now rewrite IH.
Qed.

Lemma settable_no_proto {V : Type} (o : JsObj.t V) :
  ~ In proto_key (JsObj.keys (JsObj.settable o)).
Proof.
  rewrite settable_keys. intros H. apply filter_In in H as [_ H].
  now rewrite jsstring_eqb_refl in H.
Qed.

Lemma settable_key {V : Type} (o : JsObj.t V) k :
  In k (JsObj.keys (JsObj.settable o))
  <-> In k (JsObj.keys o) /\ k <> proto_key.
Proof.
  rewrite settable_keys, filter_In, negb_true_iff. split; intros [H1 H2].
  - split; [assumption|]. intros ->. now rewrite jsstring_eqb_refl in H2.
  - split; [assumption | now apply jsstring_eqb_neq].
Qed.

Lemma settable_NoDup {V : Type} (o : JsObj.t V) :
  NoDup (JsObj.keys o) -> NoDup (JsObj.keys (JsObj.settable o)).
Proof. rewrite settable_keys. apply NoDup_filter. Qed.

Lemma settable_wf {V : Type} (o : JsObj.t V) :
  JsObj.wf o = true -> JsObj.wf (JsObj.settable o) = true.
Proof. rewrite !wf_NoDup. apply settable_NoDup. Qed.

Lemma settable_nil {V : Type} : JsObj.settable (@nil (jsstring * V)) = [].
Proof. reflexivity. Qed.

Lemma settable_app {V : Type} (o o' : JsObj.t V) :
  JsObj.settable (o ++ o') = JsObj.settable o ++ JsObj.settable o'.
Proof. apply filter_app. Qed.

Lemma settable_cons_proto {V : Type} (o : JsObj.t V) v :
  JsObj.settable ((proto_key, v) :: o) = JsObj.settable o.
Proof.
  unfold JsObj.settable. cbn [filter fst]. now rewrite jsstring_eqb_refl.
Qed.

Lemma settable_cons {V : Type} (o : JsObj.t V) k v :
  k <> proto_key ->
  JsObj.settable ((k, v) :: o) = (k, v) :: JsObj.settable o.
Proof.
  intros H. unfold JsObj.settable. cbn [filter fst].
  now rewrite (jsstring_eqb_neq _ _ H).
Qed.

(** Without a parameter [__proto__] every parameter can be written. *)
Lemma settable_all {V : Type} (o : JsObj.t V) :
  ~ In proto_key (JsObj.keys o) -> JsObj.settable o = o.
Proof.
  induction o as [|[k v] o IH]; intros H; [reflexivity|].
  cbn in H. rewrite settable_cons by tauto. f_equal. apply IH. tauto.
Qed.

Lemma settable_idem {V : Type} (o : JsObj.t V) :
  JsObj.settable (JsObj.settable o) = JsObj.settable o.
Proof. apply settable_all, settable_no_proto. Qed.

(** [url] is no member of [Object.prototype]. *)
Lemma url_text (o : JsObj.t jsstring) :
  template_val (JsObj.lookup o (lit "url")) = template (JsObj.get o (lit "url")).
Proof.
  rewrite lookup_plain by (vm_compute; reflexivity).
  now destruct (JsObj.get o (lit "url")).
Qed.

(* ================================================================== *)
(** * The expected messages and values *)
(* ================================================================== *)

Section ExpectedFacts.

Context {Rule : Type} {SU : StringUtils Rule}.

Variable csv : JsObj.t jsstring.
Variable rules : JsObj.t Rule.
Variable separators : Separators.

Lemma is_missing_true c :
  is_missing csv c = true
  <-> cell csv c = Undefined \/ cell csv c = Value [].
Proof.
  unfold is_missing. destruct (cell csv c) as [[|u s]| |k]; cbn; split;
    try tauto; try discriminate.
  - intros [H|H]; discriminate H.
  - intros [H|H]; discriminate H.
Qed.

Lemma is_missing_false c :
  is_missing csv c = false
  <-> (exists v, cell csv c = Value v /\ v <> [])
      \/ (exists k, cell csv c = Builtin k).
Proof.
  unfold is_missing. destruct (cell csv c) as [[|u s]| |k]; cbn; split;
    try discriminate; try reflexivity.
  - intros [(v & [= <-] & H)|(k & H)]; [congruence | discriminate].
  - intros _. left. exists (u :: s). split; [reflexivity | discriminate].
  - intros [(v & H & _)|(k & H)]; discriminate H.
  - intros _. right. now exists k.
Qed.

Lemma is_missing_value c v :
  cell csv c = Value v -> v <> [] -> is_missing csv c = false.
Proof. intros H Hv. apply is_missing_false. left. now exists v. Qed.



Lemma has_undefined_error_snoc seen c :
  has_undefined_error csv (seen ++ [c])
  = has_undefined_error csv seen || is_missing csv c.
Proof.
  unfold has_undefined_error. rewrite existsb_app. simpl.
  now rewrite orb_false_r.
Qed.

Lemma has_validation_error_snoc seen c :
  has_validation_error csv rules (seen ++ [c])
  = has_validation_error csv rules seen || is_invalid csv rules c.
Proof.
  unfold has_validation_error. rewrite existsb_app. simpl.
  now rewrite orb_false_r.
Qed.

Lemma raw_undefined_message_snoc seen c :
  raw_undefined_message csv (seen ++ [c])
  = raw_undefined_message csv seen
      ++ (if is_missing csv c then column_entry c else []).
Proof.
  unfold raw_undefined_message. rewrite filter_app, flat_map_app. cbn.
  rewrite <- app_assoc. f_equal. f_equal.
  destruct (is_missing csv c); cbn; now rewrite ?app_nil_r.
Qed.

Lemma raw_validation_message_snoc seen c :
  raw_validation_message csv rules (seen ++ [c])
  = raw_validation_message csv rules seen
      ++ (if is_invalid csv rules c then column_entry c else []).
Proof.
  unfold raw_validation_message. rewrite filter_app, flat_map_app. cbn.
  rewrite <- app_assoc. f_equal. f_equal.
  destruct (is_invalid csv rules c); cbn; now rewrite ?app_nil_r.
Qed.

(** The joined values are the separated values and one more separator. *)
Lemma joined_values_separated columns :
  columns <> [] ->
  joined_values csv separators columns
  = separated_values csv separators columns ++ sep_separator separators.
Proof.
  unfold joined_values, separated_values.
  induction columns as [|c cs IH]; [congruence|]. intros _.
  destruct cs as [|c' cs].
  - cbn [flat_map map join]. now rewrite app_nil_r.
  - change (flat_map
              (fun c => template_val (cell csv c) ++ sep_separator separators)
              (c :: c' :: cs))
      with ((template_val (cell csv c) ++ sep_separator separators)
              ++ flat_map
                   (fun c =>
                      template_val (cell csv c) ++ sep_separator separators)
                   (c' :: cs)).
    rewrite IH by discriminate.
    change (join (sep_separator separators)
              (map (fun c => template_val (cell csv c)) (c :: c' :: cs)))
      with (template_val (cell csv c) ++ sep_separator separators
              ++ join (sep_separator separators)
                   (map (fun c => template_val (cell csv c)) (c' :: cs))).
    now rewrite <- !app_assoc.
Qed.


(** Without a missing column, all columns are present. *)
Lemma filter_present_all columns :
  has_undefined_error csv columns = false ->
  filter (is_present csv) columns = columns.
Proof.
  unfold has_undefined_error, is_present.
  induction columns as [|c cs IH]; simpl; [reflexivity|].
  intros H. apply orb_false_iff in H as [-> H]. simpl. f_equal. now apply IH.
Qed.

Lemma kept_value_no_error columns :
  has_error csv rules columns = false ->
  kept_value csv separators columns = composed_value csv separators columns.
Proof.
  unfold has_error, kept_value. intros H. apply orb_false_iff in H as [H _].
  now rewrite filter_present_all.
Qed.

(** Stripping the last comma of the entries leaves the comma list. *)
Lemma entries_comma_list (cs : list jsstring) :
  cs <> [] -> flat_map column_entry cs = comma_list cs ++ lit ",".
Proof.
  induction cs as [|c cs IH]; [congruence|]. intros _.
  destruct cs as [|c' cs].
  - cbn [flat_map comma_list]. rewrite app_nil_r. unfold column_entry.
    now rewrite app_assoc.
  - change (flat_map column_entry (c :: c' :: cs))
      with (column_entry c ++ flat_map column_entry (c' :: cs)).
    rewrite IH by discriminate.
    change (comma_list (c :: c' :: cs))
      with (lit " " ++ c ++ lit "," ++ comma_list (c' :: cs)).
    unfold column_entry. now rewrite <- !app_assoc.
Qed.

Lemma slice_entries (header : jsstring) (cs : list jsstring) :
  cs <> [] ->
  slice_0_m1 (header ++ flat_map column_entry cs) = header ++ comma_list cs.
Proof.
  intros H. rewrite entries_comma_list by assumption.
  unfold slice_0_m1. rewrite app_assoc.
  change (lit ",") with [44%N]. apply removelast_last.
Qed.

Lemma existsb_filter_nonempty {A : Type} (f : A -> bool) (l : list A) :
  existsb f l = true -> filter f l <> [].
Proof.
  induction l as [|x l IH]; simpl; [discriminate|].
  destruct (f x); simpl; [discriminate | exact IH].
Qed.

Lemma slice_raw_undefined columns :
  has_undefined_error csv columns = true ->
  slice_0_m1 (raw_undefined_message csv columns)
  = undefined_message csv columns.
Proof.
  intros H. apply slice_entries. now apply existsb_filter_nonempty.
Qed.

Lemma slice_raw_validation columns :
  has_validation_error csv rules columns = true ->
  slice_0_m1 (raw_validation_message csv rules columns)
  = validation_message csv rules columns.
Proof.
  intros H. apply slice_entries. now apply existsb_filter_nonempty.
Qed.

End ExpectedFacts.

(* ================================================================== *)
(** * Running the constructor *)
(* ================================================================== *)

Arguments per_utm : simpl never.

Lemma keys_per_utm {V : Type} (f : list jsstring -> V)
    (o : JsObj.t (list jsstring)) :
  JsObj.keys (per_utm f o) = JsObj.keys o.
Proof. unfold per_utm, JsObj.keys. rewrite map_map. reflexivity. Qed.

Lemma per_utm_nil {V : Type} (f : list jsstring -> V) : per_utm f [] = [].
Proof. reflexivity. Qed.

Lemma per_utm_app {V : Type} (f : list jsstring -> V)
    (o o' : JsObj.t (list jsstring)) :
  per_utm f (o ++ o') = per_utm f o ++ per_utm f o'.
Proof. apply map_app. Qed.

Lemma per_utm_snoc {V : Type} (f g : list jsstring -> V)
    (done todo : JsObj.t (list jsstring)) utm columns :
  per_utm f (done ++ [(utm, columns)]) ++ per_utm g todo
  = per_utm f done ++ (utm, f columns) :: per_utm g todo.
Proof. rewrite per_utm_app, <- app_assoc. reflexivity. Qed.

Lemma get_at {V : Type} (f : list jsstring -> V)
    (done : JsObj.t (list jsstring)) (rest : JsObj.t V) utm x :
  ~ In utm (JsObj.keys done) ->
  JsObj.get (per_utm f done ++ (utm, x) :: rest) utm = Some x.
Proof. intros H. apply get_focus. now rewrite keys_per_utm. Qed.

Lemma lookup_at {V : Type} (f : list jsstring -> V)
    (done : JsObj.t (list jsstring)) (rest : JsObj.t V) utm x :
  ~ In utm (JsObj.keys done) ->
  JsObj.lookup (per_utm f done ++ (utm, x) :: rest) utm = Value x.
Proof. intros H. now apply lookup_own, get_at. Qed.

Lemma set_at {V : Type} (f : list jsstring -> V)
    (done : JsObj.t (list jsstring)) (rest : JsObj.t V) utm x y :
  ~ In utm (JsObj.keys done) ->
  JsObj.set (per_utm f done ++ (utm, x) :: rest) utm y
  = per_utm f done ++ (utm, y) :: rest.
Proof. intros H. apply set_focus. now rewrite keys_per_utm. Qed.

Lemma set_new {V : Type} (f : list jsstring -> V)
    (done : JsObj.t (list jsstring)) utm columns :
  utm <> proto_key ->
  ~ In utm (JsObj.keys done) ->
  JsObj.set (per_utm f done) utm (f columns)
  = per_utm f (done ++ [(utm, columns)]).
Proof.
  intros Hp H. rewrite set_fresh by (now rewrite ?keys_per_utm).
  now rewrite per_utm_app.
Qed.

Lemma get_per_utm (o : JsObj.t (list jsstring)) {V : Type}
    (f : list jsstring -> V) utm columns :
  NoDup (JsObj.keys o) -> In (utm, columns) o ->
  JsObj.get (per_utm f o) utm = Some (f columns).
Proof.
  intros Hnd Hin. apply In_get; [now rewrite keys_per_utm|].
  unfold per_utm. apply in_map_iff. now exists (utm, columns).
Qed.

Lemma lookup_per_utm (o : JsObj.t (list jsstring)) {V : Type}
    (f : list jsstring -> V) utm columns :
  NoDup (JsObj.keys o) -> In (utm, columns) o ->
  JsObj.lookup (per_utm f o) utm = Value (f columns).
Proof. intros Hnd Hin. now apply lookup_own, get_per_utm. Qed.

Lemma lit_ampersand : lit "&" = [38%N].
Proof. vm_compute. reflexivity. Qed.

Lemma removelast_app_unit {A : Type} (l l' : list A) (x : A) :
  removelast (l ++ x :: l') = l ++ removelast (x :: l').
Proof. apply removelast_app. discriminate. Qed.

(** Stripping the last [&] of the pairs leaves them joined by [&]. *)
Lemma slice_pairs_join {A : Type} (f : A -> jsstring) (l : list A) :
  slice_0_m1 (flat_map (fun x => f x ++ lit "&") l)
  = join (lit "&") (map f l).
Proof.
  unfold slice_0_m1. rewrite lit_ampersand.
  induction l as [|x l IH]; [reflexivity|].
  destruct l as [|y l].
  - cbn [flat_map map join]. rewrite app_nil_r. apply removelast_last.
  - change (flat_map (fun x => f x ++ [38%N]) (x :: y :: l))
      with ((f x ++ [38%N]) ++ flat_map (fun x => f x ++ [38%N]) (y :: l)).
    change (join [38%N] (map f (x :: y :: l)))
      with (f x ++ [38%N] ++ join [38%N] (map f (y :: l))).
    rewrite <- IH, <- app_assoc. cbn [app].
    destruct (flat_map (fun x => f x ++ [38%N]) (y :: l)) as [|z rest] eqn:E.
    + cbn [flat_map] in E. apply app_eq_nil in E as [E _].
      apply app_eq_nil in E as [_ E]. discriminate.
    + rewrite removelast_app_unit. reflexivity.
Qed.

Lemma bind_ok {S A B : Type} (m : M S A) (f : A -> M S B) w a w' r :
  m w = Ok (a, w') -> f a w' = r -> bind m f w = r.
Proof. unfold bind. now intros -> ->. Qed.

Section Runs.

Context {Rule : Type} {SU : StringUtils Rule}.

Variable csv : JsObj.t jsstring.
Variable rules : JsObj.t Rule.
Variable separators : Separators.
Variable cfg : JsObj.t (list jsstring).

(** One call of the column callback. *)
Lemma column_run done todo utm seen utmString column out :
  ~ In utm (JsObj.keys done) ->
  _buildUtms_column utm utmString column
    (in_columns csv rules separators cfg done todo utm seen, out)
  = Ok (utmString
          ++ (if is_present csv column
              then template_val (cell csv column) ++ sep_separator separators
              else []),
        (in_columns csv rules separators cfg done todo utm (seen ++ [column]),
         out)).
Proof.
  intros Hk.
  unfold in_columns at 2.
  rewrite has_undefined_error_snoc, has_validation_error_snoc,
    raw_undefined_message_snoc, raw_validation_message_snoc.
  unfold is_invalid, is_present, breaks_rule, is_missing, cell.
  unfold _buildUtms_column, in_columns, bind, get_this. cbn.
  destruct (_isEmpty (JsObj.lookup csv (normalize column))) eqn:Em; cbn.
  - unfold append_undefinedParameterErroMessage,
      assign_undefinedParameterErroMessage, bind, get_this, modify_this, ret.
    cbn. rewrite !set_at, !lookup_at by assumption. cbn.
    now rewrite !orb_true_r, !orb_false_r, !app_nil_r.
  - destruct (JsObj.lookup rules (normalize column)) as [rule| |k]; cbn.
    + destruct (validateString (JsObj.lookup csv (normalize column))
                  (Value rule)); cbn.
      * now rewrite !orb_false_r, !app_nil_r.
      * unfold append_validationErrorMessage, assign_validationErrorMessage,
          bind, get_this, modify_this, ret.
        cbn. rewrite !set_at, !lookup_at by assumption. cbn.
        now rewrite !orb_true_r, !orb_false_r, !app_nil_r.
    + now rewrite !orb_false_r, !app_nil_r.
    + destruct (validateString (JsObj.lookup csv (normalize column))
                  (Builtin k)); cbn.
      * now rewrite !orb_false_r, !app_nil_r.
      * unfold append_validationErrorMessage, assign_validationErrorMessage,
          bind, get_this, modify_this, ret.
        cbn. rewrite !set_at, !lookup_at by assumption. cbn.
        now rewrite !orb_true_r, !orb_false_r, !app_nil_r.
Qed.

(** The column loop of one parameter. *)
Lemma columns_run done todo utm columns : forall seen utmString out,
  ~ In utm (JsObj.keys done) ->
  forEach columns utmString (_buildUtms_column utm)
    (in_columns csv rules separators cfg done todo utm seen, out)
  = Ok (utmString
          ++ joined_values csv separators (filter (is_present csv) columns),
        (in_columns csv rules separators cfg done todo utm (seen ++ columns),
         out)).
Proof.
  induction columns as [|c cs IH]; intros seen acc out Hk.
  - cbn. now rewrite !app_nil_r.
  - cbn [forEach]. unfold bind at 1. rewrite column_run by assumption.
    rewrite IH by assumption. rewrite <- !app_assoc. cbn [app filter].
    destruct (is_present csv c); cbn [joined_values flat_map app].
    + now rewrite <- !app_assoc.
    + reflexivity.
Qed.

Lemma staged_in_columns done todo utm columns :
  staged csv rules separators cfg done ((utm, columns) :: todo)
  = in_columns csv rules separators cfg done todo utm [].
Proof.
  unfold staged, in_columns, raw_validation_message, raw_undefined_message.
  cbn [filter flat_map]. now rewrite !app_nil_r.
Qed.

Lemma in_columns_staged done todo utm columns :
  utm <> proto_key ->
  ~ In utm (JsObj.keys done) ->
  set_utms
    (JsObj.set (per_utm (kept_value csv separators) done) utm
       (kept_value csv separators columns))
    (in_columns csv rules separators cfg done todo utm columns)
  = staged csv rules separators cfg (done ++ [(utm, columns)]) todo.
Proof.
  intros Hp Hk. unfold set_utms, in_columns, staged. cbn.
  rewrite set_new by assumption. now rewrite !per_utm_snoc.
Qed.

(** One call of the parameter callback of [_buildUtms], for a parameter
    other than [__proto__]. *)
Lemma utm_run done todo utm columns out :
  utm <> proto_key ->
  JsObj.lookup cfg utm = Value columns ->
  ~ In utm (JsObj.keys done) ->
  _buildUtms_utm tt utm
    (staged csv rules separators cfg done ((utm, columns) :: todo), out)
  = Ok (tt,
        (staged csv rules separators cfg (done ++ [(utm, columns)]) todo,
         out)).
Proof.
  intros Hp Hget Hk.
  unfold _buildUtms_utm, bind at 1 2, get_this.
  cbn [fst config staged]. rewrite Hget.
  cbn [array_of ret]. unfold bind at 1.
  rewrite staged_in_columns, columns_run by assumption.
  unfold assign_utms, modify_this. cbn [fst snd app].
  rewrite <- in_columns_staged by assumption.
  reflexivity.
Qed.

(** ** The parameter [__proto__] *)

(** On objects without own property [__proto__], the callbacks of the
    parameter [__proto__] leave the instance as it is: each of their
    writes reaches the setter of [Object.prototype]. *)
Lemma column_proto_run (g : GA Rule) utmString column out :
  holds_no_proto g ->
  exists utmString',
    _buildUtms_column proto_key utmString column (g, out)
    = Ok (utmString', (g, out)).
Proof.
  intros (Hu & Hv & Hm & Hvm & Hum). destruct g; cbn in *.
  unfold _buildUtms_column, bind, get_this. cbn [fst csvLine validationRules].
  destruct (_isEmpty _).
  - unfold assign_hasUndefinedParameterError,
      append_undefinedParameterErroMessage,
      assign_undefinedParameterErroMessage, bind, get_this, modify_this, ret.
    cbn. rewrite !set_proto by assumption. eexists. reflexivity.
  - destruct (JsObj.lookup _ _) as [rule| |k];
      [destruct (validateString _ _)| |destruct (validateString _ _)];
      unfold assign_hasValidationError, append_validationErrorMessage,
        assign_validationErrorMessage, bind, get_this, modify_this, ret;
      cbn; rewrite ?set_proto by assumption; eexists; reflexivity.
Qed.

Lemma columns_proto_run (g : GA Rule) columns out :
  holds_no_proto g ->
  forall utmString,
  exists utmString',
    forEach columns utmString (_buildUtms_column proto_key) (g, out)
    = Ok (utmString', (g, out)).
Proof.
  intros Hg. induction columns as [|c cs IH]; intros acc.
  - exists acc. reflexivity.
  - destruct (column_proto_run g acc c out Hg) as (acc1 & H1).
    destruct (IH acc1) as (acc' & H').
    exists acc'. cbn [forEach]. eapply bind_ok; eassumption.
Qed.

Lemma utm_proto_run (g : GA Rule) columns out :
  holds_no_proto g ->
  JsObj.lookup (config g) proto_key = Value columns ->
  _buildUtms_utm tt proto_key (g, out) = Ok (tt, (g, out)).
Proof.
  intros Hg Hget.
  destruct (columns_proto_run g columns out Hg []) as (acc & Hrun).
  unfold _buildUtms_utm.
  eapply bind_ok; [reflexivity|]. cbn [fst]. rewrite Hget.
  eapply bind_ok; [reflexivity|].
  eapply bind_ok; [exact Hrun|].
  destruct Hg as (Hu & _). destruct g; cbn in *.
  unfold assign_utms, modify_this, set_utms. cbn.
  now rewrite set_proto.
Qed.

Lemma init_proto_run (g : GA Rule) out :
  holds_no_proto g ->
  init_utm tt proto_key (g, out) = Ok (tt, (g, out)).
Proof.
  intros (Hu & Hv & Hm & Hvm & Hum). destruct g; cbn in *.
  unfold init_utm, assign_hasValidationError,
    assign_hasUndefinedParameterError, assign_validationErrorMessage,
    assign_undefinedParameterErroMessage, bind, modify_this.
  cbn. now rewrite !set_proto.
Qed.

Lemma staged_no_proto done todo :
  ~ In proto_key (JsObj.keys done) -> ~ In proto_key (JsObj.keys todo) ->
  holds_no_proto (staged csv rules separators cfg done todo).
Proof.
  intros Hd Ht. unfold holds_no_proto, staged.
  cbn [_utms _hasValidationError _hasUndefinedParameterError
       _validationErrorMessage _undefinedParameterErroMessage].
  repeat split;
    rewrite ?keys_app, ?keys_per_utm; try assumption;
    intros H; apply in_app_or in H as [H|H]; auto.
Qed.

Lemma seeded_no_proto done :
  ~ In proto_key (JsObj.keys done) ->
  holds_no_proto (seeded csv rules separators cfg done).
Proof.
  intros Hd. unfold holds_no_proto, seeded.
  cbn [_utms _hasValidationError _hasUndefinedParameterError
       _validationErrorMessage _undefinedParameterErroMessage].
  repeat split; rewrite ?keys_per_utm; auto.
Qed.

(** The parameter loop of [_buildUtms]: the parameters other than
    [__proto__] get their value, one after the other. *)
Lemma utms_run : forall todo done out,
  cfg = done ++ todo ->
  NoDup (JsObj.keys cfg) ->
  forEach (JsObj.keys todo) tt _buildUtms_utm
    (staged csv rules separators cfg (JsObj.settable done)
       (JsObj.settable todo), out)
  = Ok (tt, (staged csv rules separators cfg (JsObj.settable cfg) [], out)).
Proof.
  induction todo as [|[utm columns] todo IH]; intros done out Hcfg Hnd.
  - rewrite app_nil_r in Hcfg. subst done. reflexivity.
  - assert (Hfresh : ~ In utm (JsObj.keys done)).
    { rewrite Hcfg in Hnd. eapply split_fresh; eassumption. }
    assert (Hget : JsObj.lookup cfg utm = Value columns).
    { apply lookup_own. rewrite Hcfg. now apply get_focus. }
    cbn [JsObj.keys map fst forEach].
    eapply bind_ok;
      [|apply (IH (done ++ [(utm, columns)]));
        [now rewrite <- app_assoc | assumption]].
    rewrite settable_app.
    destruct (jsstring_eqb utm proto_key) eqn:E.
    + apply jsstring_eqb_eq in E. subst utm.
      rewrite !settable_cons_proto, settable_nil, app_nil_r.
      apply (utm_proto_run _ columns); [|exact Hget].
      apply staged_no_proto; apply settable_no_proto.
    + assert (Hp : utm <> proto_key).
      { intros ->. now rewrite jsstring_eqb_refl in E. }
      rewrite !settable_cons by assumption. rewrite settable_nil.
      apply utm_run; try assumption.
      intros H. apply settable_key in H as [H _]. contradiction.
Qed.

(** The first loop of the constructor. *)
Lemma init_run : forall todo done out,
  NoDup (JsObj.keys (done ++ todo)) ->
  forEach (JsObj.keys todo) tt init_utm
    (seeded csv rules separators cfg (JsObj.settable done), out)
  = Ok (tt,
        (seeded csv rules separators cfg (JsObj.settable (done ++ todo)),
         out)).
Proof.
  induction todo as [|[utm columns] todo IH]; intros done out Hnd.
  - now rewrite app_nil_r.
  - assert (Hk : ~ In utm (JsObj.keys done))
      by (eapply split_fresh; eassumption).
    cbn [JsObj.keys map fst forEach].
    replace (done ++ (utm, columns) :: todo)
      with ((done ++ [(utm, columns)]) ++ todo) in *
      by now rewrite <- app_assoc.
    eapply bind_ok; [|now apply (IH (done ++ [(utm, columns)]))].
    rewrite settable_app.
    destruct (jsstring_eqb utm proto_key) eqn:E.
    + apply jsstring_eqb_eq in E. subst utm.
      rewrite settable_cons_proto, settable_nil, app_nil_r.
      apply init_proto_run, seeded_no_proto, settable_no_proto.
    + assert (Hp : utm <> proto_key).
      { intros ->. now rewrite jsstring_eqb_refl in E. }
      assert (Hk' : ~ In utm (JsObj.keys (JsObj.settable done))).
      { intros H. apply settable_key in H as [H _]. contradiction. }
      rewrite settable_cons, settable_nil by assumption.
      unfold init_utm, assign_hasValidationError,
        assign_hasUndefinedParameterError, assign_validationErrorMessage,
        assign_undefinedParameterErroMessage, bind, modify_this, seeded.
      cbn.
      rewrite <- !(set_new _ (JsObj.settable done) utm columns)
        by assumption.
      reflexivity.
Qed.

(** The loop of [_buildUrl]. *)
Lemma url_loop_run (g : GA Rule) : forall utms_keys utmString out,
  forEach utms_keys utmString
    (fun utmString utm =>
       this <- get_this ;;
       ret (utmString ++ utm ++ lit "="
              ++ template_val (JsObj.lookup (_utms this) utm) ++ lit "&"))
    (g, out)
  = Ok (utmString
          ++ flat_map
               (fun utm => utm ++ lit "="
                             ++ template_val (JsObj.lookup (_utms g) utm)
                             ++ lit "&")
               utms_keys,
        (g, out)).
Proof.
  induction utms_keys as [|utm ks IH]; intros acc out.
  - cbn. now rewrite app_nil_r.
  - cbn [forEach]. unfold bind at 1, bind at 1, get_this, ret.
    cbn [fst]. rewrite IH. cbn [flat_map]. now rewrite <- !app_assoc.
Qed.

Lemma flat_map_per_utm {V X : Type} (f : list jsstring -> V)
    (G : jsstring * V -> list X) (o : JsObj.t (list jsstring)) :
  flat_map G (per_utm f o) = flat_map (fun e => G (fst e, f (snd e))) o.
Proof.
  unfold per_utm. rewrite !flat_map_concat_map, map_map. reflexivity.
Qed.

(** The constructor leaves the instance [built_GA] and one printed row. *)
Lemma new_GA_run out :
  JsObj.wf cfg = true ->
  new_GA csv cfg separators rules out
  = Ok (built_GA csv rules separators cfg, out ++ [csv]).
Proof.
  intros Hwf. apply wf_NoDup in Hwf.
  unfold new_GA.
  replace (constructor_body cfg (fresh_GA csv cfg separators rules, out))
    with (Ok (tt, (built_GA csv rules separators cfg, out ++ [csv]))
          : Res (unit * (GA Rule * Console))); [reflexivity|].
  symmetry. unfold constructor_body.
  eapply bind_ok; [apply (init_run cfg []); assumption|].
  eapply bind_ok.
  { unfold _buildUtms. eapply bind_ok; [reflexivity|].
    eapply bind_ok; [reflexivity|].
    apply (utms_run cfg []); [reflexivity | assumption]. }
  unfold _buildUrl.
  eapply bind_ok; [reflexivity|].
  eapply bind_ok; [apply url_loop_run|].
  eapply bind_ok; [reflexivity|].
  unfold modify_this. cbn [fst snd app]. do 2 f_equal.
  unfold staged, set_url, built_GA. cbn.
  change (map fst (per_utm (kept_value csv separators) (JsObj.settable cfg)))
    with (JsObj.keys
            (per_utm (kept_value csv separators) (JsObj.settable cfg))).
  rewrite (flat_map_keys
             (fun k v => k ++ lit "=" ++ template_val v ++ lit "&"))
    by (rewrite keys_per_utm; now apply settable_NoDup).
  rewrite flat_map_per_utm, !per_utm_nil, !app_nil_r, url_text. reflexivity.
Qed.

(* ------------------------------------------------------------------ *)
(** ** Reading [buildedFields] *)

Lemma flag_set_built utm columns :
  NoDup (JsObj.keys cfg) -> In (utm, columns) (JsObj.settable cfg) ->
  flag_set (built_GA csv rules separators cfg) utm
  = has_error csv rules columns.
Proof.
  intros Hnd Hin. apply settable_NoDup in Hnd. unfold flag_set, built_GA.
  cbn [_hasUndefinedParameterError _hasValidationError].
  now rewrite !(lookup_per_utm _ _ utm columns).
Qed.

Lemma hasErrorAtUtm_run (g : GA Rule) utm out :
  _hasErrorAtUtm utm (g, out) = Ok (flag_set g utm, (g, out)).
Proof. reflexivity. Qed.

Lemma errorMessageAtUtm_run utm columns out :
  NoDup (JsObj.keys cfg) -> In (utm, columns) (JsObj.settable cfg) ->
  _errorMessageAtUtm utm (built_GA csv rules separators cfg, out)
  = Ok (error_message csv rules columns,
        (built_GA csv rules separators cfg, out)).
Proof.
  intros Hnd Hin. apply settable_NoDup in Hnd. unfold _errorMessageAtUtm.
  eapply bind_ok; [reflexivity|].
  cbn [fst _hasUndefinedParameterError _hasValidationError
       _undefinedParameterErroMessage _validationErrorMessage built_GA].
  rewrite !(lookup_per_utm _ _ utm columns) by assumption.
  unfold error_message. cbn [truthy].
  destruct (has_undefined_error csv columns) eqn:Eu;
    destruct (has_validation_error csv rules columns) eqn:Ev;
    cbn [slice_of app];
    repeat (eapply bind_ok; [reflexivity|]); unfold ret; cbn [app];
    rewrite ?slice_raw_undefined, ?slice_raw_validation by assumption;
    reflexivity.
Qed.

(** The loop of [buildedFields] that fills the local object [utms]. *)
Lemma fields_loop_run : forall todo done out,
  JsObj.settable cfg = done ++ todo ->
  NoDup (JsObj.keys cfg) ->
  forEach (JsObj.keys todo)
    (per_utm (fun columns => Value (shown_value csv rules separators columns))
       done)
    (fun utms utm =>
       e <- _hasErrorAtUtm utm ;;
       v <- (if e
             then m <- _errorMessageAtUtm utm ;; ret (Value m)
             else this <- get_this ;;
                  ret (JsObj.lookup (_utms this) utm)) ;;
       ret (JsObj.set utms utm v))
    (built_GA csv rules separators cfg, out)
  = Ok (per_utm (fun columns => Value (shown_value csv rules separators columns))
          (JsObj.settable cfg),
        (built_GA csv rules separators cfg, out)).
Proof.
  induction todo as [|[utm columns] todo IH]; intros done out Hcfg Hnd.
  - rewrite app_nil_r in Hcfg. now subst done.
  - pose proof (settable_NoDup _ Hnd) as Hnd'.
    assert (Hk : ~ In utm (JsObj.keys done)).
    { rewrite Hcfg in Hnd'. eapply split_fresh; eassumption. }
    assert (Hin : In (utm, columns) (JsObj.settable cfg)).
    { rewrite Hcfg. apply in_or_app. right. now left. }
    assert (Hp : utm <> proto_key) by (now apply settable_In in Hin).
    cbn [JsObj.keys map fst forEach].
    eapply bind_ok; [|apply (IH (done ++ [(utm, columns)]));
                      [now rewrite <- app_assoc | assumption]].
    eapply bind_ok; [apply hasErrorAtUtm_run|].
    rewrite (flag_set_built utm columns) by assumption.
    rewrite <- (set_new _ done utm columns) by assumption.
    unfold shown_value at 3.
    destruct (has_error csv rules columns) eqn:He.
    + eapply bind_ok; [|reflexivity].
      eapply bind_ok;
        [apply (errorMessageAtUtm_run utm columns); assumption | reflexivity].
    + eapply bind_ok; [|reflexivity].
      eapply bind_ok; [reflexivity|].
      unfold ret. cbn [fst _utms built_GA].
      rewrite (lookup_per_utm _ _ utm columns) by assumption.
      now rewrite (kept_value_no_error csv rules).
Qed.

Lemma any_loop_run (g : GA Rule) : forall utms_keys hasError out,
  forEach utms_keys hasError
    (fun hasError utm =>
       e <- _hasErrorAtUtm utm ;;
       ret (if e then true else hasError))
    (g, out)
  = Ok (hasError || existsb (flag_set g) utms_keys, (g, out)).
Proof.
  induction utms_keys as [|utm ks IH]; intros h out.
  - cbn. now rewrite orb_false_r.
  - cbn [forEach existsb].
    eapply bind_ok; [eapply bind_ok; [apply hasErrorAtUtm_run | reflexivity]|].
    rewrite IH. do 2 f_equal.
    destruct (flag_set g utm), h; reflexivity.
Qed.

Lemma existsb_on_keys {V : Type} (F : jsstring -> bool)
    (G : jsstring * V -> bool) (o : JsObj.t V) :
  (forall e, In e o -> F (fst e) = G e) ->
  existsb F (JsObj.keys o) = existsb G o.
Proof.
  induction o as [|e o IH]; intros H; cbn; [reflexivity|].
  rewrite H by now left. f_equal. apply IH. intros e' He'. apply H. now right.
Qed.

Lemma hasAnyErrorAtUtms_run out :
  NoDup (JsObj.keys cfg) ->
  _hasAnyErrorAtUtms (built_GA csv rules separators cfg, out)
  = Ok (any_error csv rules (JsObj.settable cfg),
        (built_GA csv rules separators cfg, out)).
Proof.
  intros Hnd. unfold _hasAnyErrorAtUtms.
  eapply bind_ok; [reflexivity|].
  rewrite any_loop_run. cbn [orb fst _utms built_GA].
  rewrite keys_per_utm. do 2 f_equal.
  apply existsb_on_keys. intros [utm columns] Hin.
  now apply flag_set_built.
Qed.

Lemma kept_url_no_error (o : JsObj.t (list jsstring)) :
  any_error csv rules o = false ->
  kept_url csv separators o = composed_url csv separators o.
Proof.
  intros H. unfold kept_url, composed_url, url_pairs. do 2 f_equal.
  rewrite <- slice_pairs_join. f_equal.
  rewrite !flat_map_concat_map. f_equal. apply map_ext_in.
  intros [utm columns] Hin. cbn [fst snd].
  rewrite (kept_value_no_error csv rules);
    [now rewrite <- !app_assoc|].
  unfold any_error in H.
  destruct (has_error csv rules columns) eqn:He; [|reflexivity].
  rewrite <- H. symmetry. apply existsb_exists. now exists (utm, columns).
Qed.

(** Reading [buildedFields] on the built instance gives the expected
    result for the parameters other than [__proto__], and leaves the
    instance and the console as they were. *)
Lemma buildedFields_run out :
  JsObj.wf cfg = true ->
  buildedFields (built_GA csv rules separators cfg, out)
  = Ok (expected_result csv rules separators (JsObj.settable cfg),
        (built_GA csv rules separators cfg, out)).
Proof.
  intros Hwf. apply wf_NoDup in Hwf. unfold buildedFields.
  eapply bind_ok; [reflexivity|].
  eapply bind_ok.
  { cbn [fst _utms built_GA]. rewrite keys_per_utm.
    apply (fields_loop_run (JsObj.settable cfg) []);
      [reflexivity | assumption]. }
  eapply bind_ok; [now apply hasAnyErrorAtUtms_run|].
  eapply bind_ok; [reflexivity|].
  unfold ret, expected_result. cbn [fst url built_GA]. do 3 f_equal.
  destruct (any_error csv rules (JsObj.settable cfg)) eqn:Ea; [reflexivity|].
  now rewrite kept_url_no_error.
Qed.

(** One build returns the expected result for the parameters other than
    [__proto__], and prints the row once. *)
Lemma build_run out :
  JsObj.wf cfg = true ->
  build csv cfg separators rules out
  = Ok (expected_result csv rules separators (JsObj.settable cfg),
        out ++ [csv]).
Proof.
  intros Hwf. unfold build.
  rewrite new_GA_run, buildedFields_run by assumption. reflexivity.
Qed.

(** Without a parameter [__proto__] that is the result for the whole
    configuration. *)
Lemma build_run_all out :
  JsObj.wf cfg = true ->
  ~ In proto_key (JsObj.keys cfg) ->
  build csv cfg separators rules out
  = Ok (expected_result csv rules separators cfg, out ++ [csv]).
Proof.
  intros Hwf Hp. rewrite build_run by assumption.
  now rewrite settable_all.
Qed.

End Runs.

(* ================================================================== *)
(** * Reading the expected result *)
(* ================================================================== *)




Lemma correct_parameters_no_question_mark :
  ~ In question_mark correct_parameters.
Proof.
  assert (H : existsb (N.eqb question_mark) correct_parameters = false)
    by (vm_compute; reflexivity).
  intros Hin.
  assert (H' : existsb (N.eqb question_mark) correct_parameters = true).
  { apply existsb_exists. exists question_mark. split; [assumption|].
    apply N.eqb_refl. }
  congruence.
Qed.

Lemma contains_refl (s : jsstring) : contains s s.
Proof. exists [], []. now rewrite app_nil_r. Qed.

Lemma contains_app_l (s t x : jsstring) : contains s x -> contains (s ++ t) x.
Proof.
  intros (pre & post & ->). exists pre, (post ++ t).
  now rewrite <- !app_assoc.
Qed.

Lemma contains_app_r (s t x : jsstring) : contains t x -> contains (s ++ t) x.
Proof.
  intros (pre & post & ->). exists (s ++ pre), post.
  now rewrite <- !app_assoc.
Qed.

Lemma comma_list_contains (cs : list jsstring) (c : jsstring) :
  In c cs -> contains (comma_list cs) c.
Proof.
  induction cs as [|c0 cs IH]; [contradiction|].
  intros Hin. destruct cs as [|c1 cs].
  - destruct Hin as [->|[]]. cbn [comma_list].
    apply contains_app_r, contains_refl.
  - change (comma_list (c0 :: c1 :: cs))
      with (lit " " ++ c0 ++ lit "," ++ comma_list (c1 :: cs)).
    destruct Hin as [->|Hin].
    + apply contains_app_r, contains_app_l, contains_refl.
    + apply contains_app_r, contains_app_r, contains_app_r. now apply IH.
Qed.

Lemma join_two (sep a b : jsstring) : join sep [a; b] = a ++ sep ++ b.
Proof. reflexivity. Qed.



Lemma In_keys {V : Type} (o : JsObj.t V) k v :
  In (k, v) o -> In k (JsObj.keys o).
Proof. intros H. apply in_map_iff. now exists (k, v). Qed.


Lemma existsb_pointwise {A : Type} (f g : A -> bool) (l : list A) :
  (forall x, In x l -> f x = g x) -> existsb f l = existsb g l.
Proof.
  induction l as [|x l IH]; intros H; cbn; [reflexivity|].
  rewrite (H x) by now left. f_equal. apply IH. intros y Hy. apply H. now right.
Qed.


Lemma filter_pointwise {A : Type} (f g : A -> bool) (l : list A) :
  (forall x, In x l -> f x = g x) -> filter f l = filter g l.
Proof.
  induction l as [|x l IH]; intros H; cbn; [reflexivity|].
  rewrite (H x) by now left.
  rewrite IH by (intros y Hy; apply H; now right). reflexivity.
Qed.

Lemma existsb_Permutation {A : Type} (f : A -> bool) (l l' : list A) :
  Permutation l l' -> existsb f l = existsb f l'.
Proof.
  intros Hp. induction Hp; cbn.
  - reflexivity.
  - now f_equal.
  - destruct (f x), (f y); reflexivity.
  - congruence.
Qed.

Section ExpectedReads.

Context {Rule : Type} {SU : StringUtils Rule}.

Variable csv : JsObj.t jsstring.
Variable rules : JsObj.t Rule.
Variable separators : Separators.
Variable cfg : JsObj.t (list jsstring).

Lemma utms_expected :
  utms (expected_result csv rules separators cfg)
  = per_utm (fun columns => Value (shown_value csv rules separators columns))
      cfg.
Proof. reflexivity. Qed.

Lemma read_expected utm columns :
  JsObj.wf cfg = true -> In (utm, columns) cfg ->
  JsObj.read (utms (expected_result csv rules separators cfg)) utm
  = Some (shown_value csv rules separators columns).
Proof.
  intros Hwf Hin. apply wf_NoDup in Hwf.
  unfold JsObj.read. rewrite utms_expected.
  now rewrite (get_per_utm cfg _ utm columns).
Qed.

Lemma keys_expected :
  JsObj.keys (utms (expected_result csv rules separators cfg))
  = JsObj.keys cfg.
Proof. rewrite utms_expected. apply keys_per_utm. Qed.

Lemma any_error_false :
  any_error csv rules cfg = false <->
  (forall utm columns, In (utm, columns) cfg ->
     has_error csv rules columns = false).
Proof.
  unfold any_error. split.
  - intros H utm columns Hin.
    destruct (has_error csv rules columns) eqn:He; [|reflexivity].
    rewrite <- H. symmetry. apply existsb_exists. now exists (utm, columns).
  - intros H. destruct (existsb _ cfg) eqn:E; [|reflexivity].
    apply existsb_exists in E as ([utm columns] & Hin & He).
    cbn in He. rewrite (H utm columns Hin) in He. discriminate.
Qed.

Lemma any_error_true :
  any_error csv rules cfg = true <->
  (exists utm columns, In (utm, columns) cfg
     /\ has_error csv rules columns = true).
Proof.
  unfold any_error. rewrite existsb_exists. split.
  - intros ([utm columns] & Hin & He). now exists utm, columns.
  - intros (utm & columns & Hin & He). now exists (utm, columns).
Qed.



(** The error text ends with the validation message when there is one,
    and starts with the undefined-parameter message when there is one. *)
Lemma error_message_validation columns :
  has_validation_error csv rules columns = true ->
  error_message csv rules columns
  = (if has_undefined_error csv columns
     then undefined_message csv columns ++ lit " - "
     else [])
    ++ validation_message csv rules columns.
Proof.
  intros Hv. unfold error_message. rewrite Hv.
  destruct (has_undefined_error csv columns); cbn [app].
  - rewrite join_two. now rewrite <- app_assoc.
  - reflexivity.
Qed.







End ExpectedReads.

(* ================================================================== *)
(** * A build never throws *)
(* ================================================================== *)

(** The facts of this section hold for any list of properties as
    configuration, repeated keys included. *)









Section Totality.

Context {Rule : Type} {SU : StringUtils Rule}.











Lemma build_ok csv cfg separators (rules : JsObj.t Rule) out g w r :
  new_GA csv cfg separators rules out = Ok (g, w) ->
  buildedFields (g, w) = Ok (r, (g, w)) ->
  build csv cfg separators rules out = Ok (r, w).
Proof. intros Hg Hr. unfold build. rewrite Hg, Hr. reflexivity. Qed.

End Totality.

(* ================================================================== *)
(** * The properties of a build *)
(* ================================================================== *)








(** C3, as stated, fails: the column callback appends the value of a
    present column that breaks its rule. With the rule of "Tipo de Compra"
    accepting only "cpa" and "cpm" and the row holding "CPC", the callback
    still extends the accumulator, and the value the instance keeps for
    [utm_source] contains the rejected text. *)
Lemma invalid_column_is_appended :
  breaks_rule Sample.row2 Sample.rules2 (lit "Tipo de Compra") = true
  /\ value_of
       (_buildUtms_column (lit "utm_source") (lit "Google Ads_")
          (lit "Tipo de Compra")
          (fresh_GA Sample.row2 Sample.cfg2 Sample.separators Sample.rules2,
           []))
     = Some (lit "Google Ads_CPC_")
  /\ ~ appends_only_valid_columns
         (fresh_GA Sample.row2 Sample.cfg2 Sample.separators Sample.rules2)
         [] (lit "utm_source") (lit "Google Ads_") (lit "Tipo de Compra")
  /\ option_map (fun g => JsObj.get (_utms g) (lit "utm_source"))
       (value_of
          (new_GA Sample.row2 Sample.cfg2 Sample.separators Sample.rules2 []))
     = Some (Some (lit "google-ads_cpc")).
Proof.
  assert (Hb : breaks_rule Sample.row2 Sample.rules2 (lit "Tipo de Compra")
               = true) by (vm_compute; reflexivity).
  assert (Hv : value_of
                 (_buildUtms_column (lit "utm_source") (lit "Google Ads_")
                    (lit "Tipo de Compra")
                    (fresh_GA Sample.row2 Sample.cfg2 Sample.separators
                       Sample.rules2, []))
               = Some (lit "Google Ads_CPC_")) by (vm_compute; reflexivity).
  split; [exact Hb|]. split; [exact Hv|]. split.
  - intros H. unfold appends_only_valid_columns in H.
    destruct (_buildUtms_column (lit "utm_source") (lit "Google Ads_")
                (lit "Tipo de Compra")
                (fresh_GA Sample.row2 Sample.cfg2 Sample.separators
                   Sample.rules2, [])) as [[s w]|e] eqn:E;
      [|discriminate Hv].
    cbn [value_of] in Hv. injection Hv as ->.
    destruct (H _ w E) as [_ Hno].
    + vm_compute. discriminate.
    + cbn [csvLine validationRules fresh_GA] in Hno. congruence.
  - vm_compute. reflexivity.
Qed.

(** C3, amended. A column's value, followed by the field separator, is
    appended to the accumulator of its parameter exactly when the column
    passed the missing-value check (its read gave neither [undefined] nor
    the empty string), whether or not it passes its rule; so the value
    the instance keeps for a parameter other than [__proto__] is composed
    from all its present columns. *)
Theorem appended_when_present
    (Rule : Type) (SU : StringUtils Rule)
    (csv : JsObj.t jsstring) (cfg : JsObj.t (list jsstring))
    (separators : Separators) (rules : JsObj.t Rule) (out : Console) :
  JsObj.wf cfg = true ->
  (forall (g : GA Rule) (utm utmString column : jsstring),
      exists g',
        _buildUtms_column utm utmString column (g, out)
        = Ok (if is_present (csvLine g) column
              then utmString ++ template_val (cell (csvLine g) column)
                     ++ separator g
              else utmString,
              (g', out)))
  /\ exists g,
       new_GA csv cfg separators rules out = Ok (g, out ++ [csv])
       /\ forall p columns,
            In (p, columns) cfg -> p <> proto_key ->
            JsObj.get (_utms g) p
            = Some (composed_value csv separators
                      (filter (is_present csv) columns)).
Proof.
  intros Hwf. split.
  - intros g utm utmString column.
    unfold is_present, is_missing, cell, _buildUtms_column, bind, get_this.
    cbn [fst].
    destruct (_isEmpty (JsObj.lookup (csvLine g) (normalize column))); cbn.
    + eexists. reflexivity.
    + destruct (JsObj.lookup (validationRules g) (normalize column))
        as [rule| |b];
        [destruct (validateString
                     (JsObj.lookup (csvLine g) (normalize column))
                     (Value rule))
        |
        |destruct (validateString
                     (JsObj.lookup (csvLine g) (normalize column))
                     (Builtin b))];
        cbn; eexists; reflexivity.
  - exists (built_GA csv rules separators cfg).
    split; [now apply new_GA_run|].
    intros p columns Hin Hp. apply wf_NoDup in Hwf.
    cbn [_utms built_GA].
    now rewrite (get_per_utm (JsObj.settable cfg) _ p columns)
      by (now apply settable_NoDup || now apply settable_In).
Qed.

Lemma appended_when_present_witness :
  JsObj.wf Sample.cfg2 = true
  /\ lit "utm_source" <> proto_key
  /\ is_invalid Sample.row2 Sample.rules2 (lit "Tipo de Compra") = true
  /\ exists g,
       new_GA Sample.row2 Sample.cfg2 Sample.separators Sample.rules2 []
       = Ok (g, [Sample.row2])
       /\ JsObj.get (_utms g) (lit "utm_source") = Some (lit "google-ads_cpc").
Proof.
  assert (Hwf : JsObj.wf Sample.cfg2 = true) by (vm_compute; reflexivity).
  assert (Hp : lit "utm_source" <> proto_key) by (vm_compute; discriminate).
  split; [exact Hwf|]. split; [exact Hp|]. split; [vm_compute; reflexivity|].
  destruct (appended_when_present _ _ Sample.row2 Sample.cfg2
              Sample.separators Sample.rules2 [] Hwf) as (_ & g & Hg & Hk).
  exists g. split; [exact Hg|].
  rewrite (Hk (lit "utm_source") [lit "Veículo"; lit "Tipo de Compra"])
    by (now left || exact Hp).
  vm_compute. reflexivity.
Defined.










(* ------------------------------------------------------------------ *)
(** ** Validators that differ on missing values only *)

Section ValidatorAgreement.

Context {Rule : Type}.

Variable norm : jsstring -> jsstring.
Variable rws : jsstring -> jsstring -> jsstring.
Variables v1 v2 : jsval jsstring -> jsval Rule -> bool.

Hypothesis agree :
  forall v rule, _isEmpty v = false -> v1 v rule = v2 v rule.

Variable csv : JsObj.t jsstring.
Variable rules : JsObj.t Rule.
Variable separators : Separators.












End ValidatorAgreement.

Lemma get_absent {V : Type} (o : JsObj.t V) k :
  ~ In k (JsObj.keys o) -> JsObj.get o k = None.
Proof.
  intros H. destruct (JsObj.get o k) as [v|] eqn:E; [|reflexivity].
  apply get_Some_In, In_keys in E. contradiction.
Qed.




(* ------------------------------------------------------------------ *)
(** ** Permuting the configuration *)

Lemma settable_Permutation {V : Type} (o o' : JsObj.t V) :
  Permutation o o' -> Permutation (JsObj.settable o) (JsObj.settable o').
Proof.
  intros H. unfold JsObj.settable.
  induction H as [|x l l' Hl IH|x y l|l l' l'' H1 IH1 H2 IH2];
    cbn [filter].
  - constructor.
  - destruct (negb (jsstring_eqb (fst x) proto_key));
      [now constructor | assumption].
  - destruct (negb (jsstring_eqb (fst x) proto_key));
      destruct (negb (jsstring_eqb (fst y) proto_key));
      try apply perm_swap; apply Permutation_refl.
  - eapply perm_trans; eassumption.
Qed.

Section Reordering.

Context {Rule : Type} {SU : StringUtils Rule}.

Variable csv : JsObj.t jsstring.
Variable rules : JsObj.t Rule.
Variable separators : Separators.
Variables cfg cfg' : JsObj.t (list jsstring).

Hypothesis cfg_wf : NoDup (JsObj.keys cfg).
Hypothesis reordered : Permutation cfg cfg'.

Lemma reordered_wf : NoDup (JsObj.keys cfg').
Proof.
  eapply Permutation_NoDup; [|exact cfg_wf]. now apply Permutation_map.
Qed.

Lemma settable_reordered :
  Permutation (JsObj.settable cfg) (JsObj.settable cfg').
Proof. now apply settable_Permutation. Qed.

Lemma get_per_utm_reordered {V : Type} (f : list jsstring -> V) p :
  JsObj.get (per_utm f (JsObj.settable cfg)) p
  = JsObj.get (per_utm f (JsObj.settable cfg')) p.
Proof.
  apply get_Permutation;
    [rewrite keys_per_utm; now apply settable_NoDup|].
  apply Permutation_map, settable_reordered.
Qed.

Lemma lookup_per_utm_reordered {V : Type} (f : list jsstring -> V) p :
  JsObj.lookup (per_utm f (JsObj.settable cfg)) p
  = JsObj.lookup (per_utm f (JsObj.settable cfg')) p.
Proof. unfold JsObj.lookup. now rewrite get_per_utm_reordered. Qed.

Lemma any_error_reordered :
  any_error csv rules (JsObj.settable cfg)
  = any_error csv rules (JsObj.settable cfg').
Proof. apply existsb_Permutation, settable_reordered. Qed.

Lemma flag_set_reordered p :
  flag_set (built_GA csv rules separators cfg) p
  = flag_set (built_GA csv rules separators cfg') p.
Proof.
  unfold flag_set, built_GA.
  cbn [_hasUndefinedParameterError _hasValidationError].
  now rewrite !(lookup_per_utm_reordered _ p).
Qed.

End Reordering.

(** C8. Permuting the parameters of the configuration changes no
    parameter's kept value, error state or shown text; [utms] and the
    pairs of the URL follow the order of the configuration that was
    given (they hold its parameters other than [__proto__], which are all
    its parameters when none has that name). *)
Theorem config_order_independent
    (Rule : Type) (SU : StringUtils Rule)
    (csv : JsObj.t jsstring) (cfg cfg' : JsObj.t (list jsstring))
    (separators : Separators) (rules : JsObj.t Rule) (out : Console) :
  JsObj.wf cfg = true ->
  Permutation cfg cfg' ->
  exists g g' r r',
    new_GA csv cfg separators rules out = Ok (g, out ++ [csv])
    /\ buildedFields (g, out ++ [csv]) = Ok (r, (g, out ++ [csv]))
    /\ new_GA csv cfg' separators rules out = Ok (g', out ++ [csv])
    /\ buildedFields (g', out ++ [csv]) = Ok (r', (g', out ++ [csv]))
    /\ (forall p,
           JsObj.get (_utms g) p = JsObj.get (_utms g') p
           /\ flag_set g p = flag_set g' p
           /\ JsObj.read (utms r) p = JsObj.read (utms r') p)
    /\ JsObj.keys (utms r) = JsObj.keys (JsObj.settable cfg)
    /\ JsObj.keys (utms r') = JsObj.keys (JsObj.settable cfg')
    /\ url_ga r
       = Some (if any_error csv rules (JsObj.settable cfg)
               then correct_parameters
               else composed_url csv separators (JsObj.settable cfg))
    /\ url_ga r'
       = Some (if any_error csv rules (JsObj.settable cfg)
               then correct_parameters
               else composed_url csv separators (JsObj.settable cfg'))
    /\ (~ In proto_key (JsObj.keys cfg) ->
        JsObj.settable cfg = cfg /\ JsObj.settable cfg' = cfg').
Proof.
  intros Hwf Hp. pose proof (proj1 (wf_NoDup cfg) Hwf) as Hnd.
  pose proof (reordered_wf cfg cfg' Hnd Hp) as Hnd'.
  pose proof (proj2 (wf_NoDup cfg') Hnd') as Hwf'.
  exists (built_GA csv rules separators cfg),
    (built_GA csv rules separators cfg'),
    (expected_result csv rules separators (JsObj.settable cfg)),
    (expected_result csv rules separators (JsObj.settable cfg')).
  split; [now apply new_GA_run|].
  split; [now apply buildedFields_run|].
  split; [now apply new_GA_run|].
  split; [now apply buildedFields_run|].
  split; [|split; [|split; [|split; [|split]]]].
  - intros p. split; [|split].
    + cbn [_utms built_GA]. now apply get_per_utm_reordered.
    + now apply flag_set_reordered.
    + unfold JsObj.read. rewrite !utms_expected.
      now rewrite (get_per_utm_reordered cfg cfg' Hnd Hp).
  - apply keys_expected.
  - apply keys_expected.
  - reflexivity.
  - cbn [url_ga expected_result].
    now rewrite (any_error_reordered csv rules cfg cfg' Hp).
  - intros Hno. split; apply settable_all; [assumption|].
    intros H. apply Hno.
    apply (Permutation_in _ (Permutation_sym (Permutation_map fst Hp)) H).
Qed.

Lemma config_order_independent_witness :
  JsObj.wf Sample.cfg3 = true
  /\ Permutation Sample.cfg3 Sample.cfg3_permuted
  /\ exists r r',
       build Sample.row2 Sample.cfg3 Sample.separators Sample.no_rules []
       = Ok (r, [Sample.row2])
       /\ build Sample.row2 Sample.cfg3_permuted Sample.separators
            Sample.no_rules []
          = Ok (r', [Sample.row2])
       /\ (forall p, JsObj.read (utms r) p = JsObj.read (utms r') p)
       /\ JsObj.keys (utms r) = [lit "utm_source"; lit "utm_campaign"]
       /\ JsObj.keys (utms r') = [lit "utm_campaign"; lit "utm_source"]
       /\ url_ga r
          = Some (lit "http://x.com?utm_source=google-ads_cpc&utm_campaign=verao-2021")
       /\ url_ga r'
          = Some (lit "http://x.com?utm_campaign=verao-2021&utm_source=google-ads_cpc").
Proof.
  assert (Hwf : JsObj.wf Sample.cfg3 = true) by (vm_compute; reflexivity).
  assert (Hp : Permutation Sample.cfg3 Sample.cfg3_permuted).
  { unfold Sample.cfg3, Sample.cfg3_permuted. apply perm_swap. }
  split; [exact Hwf|]. split; [exact Hp|].
  destruct (config_order_independent _ _ Sample.row2 Sample.cfg3
              Sample.cfg3_permuted Sample.separators Sample.no_rules []
              Hwf Hp)
    as (g & g' & r & r' & Hg & Hr & Hg' & Hr' & Hsame & Hk & Hk' & Hu & Hu'
        & _).
  exists r, r'.
  split; [unfold build; rewrite Hg, Hr; reflexivity|].
  split; [unfold build; rewrite Hg', Hr'; reflexivity|].
  split; [intros p; apply Hsame|].
  split; [rewrite Hk; vm_compute; reflexivity|].
  split; [rewrite Hk'; vm_compute; reflexivity|].
  split; [rewrite Hu | rewrite Hu']; vm_compute; reflexivity.
Defined.

(** C9. Two builds from the same row, configuration, rules and separators
    return equal results, whatever ran before them; and reading
    [buildedFields] twice on one instance returns the same result twice
    and leaves the instance as it was. *)
Theorem build_deterministic
    (Rule : Type) (SU : StringUtils Rule)
    (csv : JsObj.t jsstring) (cfg : JsObj.t (list jsstring))
    (separators : Separators) (rules : JsObj.t Rule) (out out' : Console) :
  JsObj.wf cfg = true ->
  exists g r,
    build csv cfg separators rules out = Ok (r, out ++ [csv])
    /\ build csv cfg separators rules (out ++ [csv])
       = Ok (r, (out ++ [csv]) ++ [csv])
    /\ build csv cfg separators rules out' = Ok (r, out' ++ [csv])
    /\ new_GA csv cfg separators rules out = Ok (g, out ++ [csv])
    /\ read_twice (g, out ++ [csv]) = Ok ((r, r), (g, out ++ [csv])).
Proof.
  intros Hwf.
  exists (built_GA csv rules separators cfg),
    (expected_result csv rules separators (JsObj.settable cfg)).
  split; [now apply build_run|].
  split; [now apply build_run|].
  split; [now apply build_run|].
  split; [now apply new_GA_run|].
  unfold read_twice.
  eapply bind_ok; [now apply buildedFields_run|].
  eapply bind_ok; [now apply buildedFields_run|].
  reflexivity.
Qed.

Lemma build_deterministic_witness :
  JsObj.wf Sample.cfg2 = true
  /\ exists r,
       build Sample.row2 Sample.cfg2 Sample.separators Sample.rules2 []
       = Ok (r, [Sample.row2])
       /\ build Sample.row2 Sample.cfg2 Sample.separators Sample.rules2
            [Sample.row2]
          = Ok (r, [Sample.row2; Sample.row2])
       /\ build Sample.row2 Sample.cfg2 Sample.separators Sample.rules2
            [Sample.row; Sample.row_no_url]
          = Ok (r, [Sample.row; Sample.row_no_url; Sample.row2]).
Proof.
  assert (Hwf : JsObj.wf Sample.cfg2 = true) by (vm_compute; reflexivity).
  split; [exact Hwf|].
  destruct (build_deterministic _ _ Sample.row2 Sample.cfg2 Sample.separators
              Sample.rules2 [] [Sample.row; Sample.row_no_url] Hwf)
    as (g & r & H1 & H2 & H3 & _).
  exists r. split; [exact H1|]. split; [exact H2 | exact H3].
Defined.




(* ================================================================== *)
(** * Further properties of the builder *)
(* ================================================================== *)

Section FurtherFacts.

Context {Rule : Type} {SU : StringUtils Rule}.

Variable csv : JsObj.t jsstring.
Variable rules : JsObj.t Rule.
Variable separators : Separators.

Lemma breaks_rule_true c :
  breaks_rule csv rules c = true <->
  JsObj.lookup rules (normalize c) <> Undefined
  /\ validateString (cell csv c) (JsObj.lookup rules (normalize c)) = false.
Proof.
  unfold breaks_rule.
  destruct (JsObj.lookup rules (normalize c)) as [rule| |k].
  - rewrite negb_true_iff. split; [now split | now intros [_ H]].
  - split; [discriminate | now intros [H _]].
  - rewrite negb_true_iff. split; [now split | now intros [_ H]].
Qed.

Lemma is_invalid_true c :
  is_invalid csv rules c = true <->
  is_missing csv c = false
  /\ JsObj.lookup rules (normalize c) <> Undefined
  /\ validateString (cell csv c) (JsObj.lookup rules (normalize c)) = false.
Proof.
  unfold is_invalid, is_present.
  rewrite andb_true_iff, negb_true_iff, breaks_rule_true.
  reflexivity.
Qed.

Lemma has_undefined_error_true columns :
  has_undefined_error csv columns = true <->
  exists c, In c columns
            /\ (cell csv c = Undefined \/ cell csv c = Value []).
Proof.
  unfold has_undefined_error. rewrite existsb_exists.
  split; intros (c & Hc & H); exists c; (split; [assumption|]);
    now apply is_missing_true.
Qed.

Lemma has_validation_error_true columns :
  has_validation_error csv rules columns = true <->
  exists c, In c columns
            /\ is_missing csv c = false
            /\ JsObj.lookup rules (normalize c) <> Undefined
            /\ validateString (cell csv c)
                 (JsObj.lookup rules (normalize c)) = false.
Proof.
  unfold has_validation_error. rewrite existsb_exists.
  split; intros (c & Hc & H); exists c; (split; [assumption|]);
    now apply is_invalid_true.
Qed.

End FurtherFacts.

(** X1. When a column configured for a parameter [p] other than
    [__proto__] holds a non-empty value that fails the column's rule,
    [utms[p]] ends with the validation message, the header
    ["Parâmetros incorretos:"] followed by the comma list of the failing
    columns, which names the column as the configuration writes it; the
    undefined-parameter message and [" - "] come before it exactly when
    [p] also has a missing column; ['url ga'] is the sentinel. *)
Theorem build_invalid_column
    (Rule : Type) (SU : StringUtils Rule)
    (csv : JsObj.t jsstring) (cfg : JsObj.t (list jsstring))
    (separators : Separators) (rules : JsObj.t Rule) (out : Console)
    (p : jsstring) (columns : list jsstring) (c : jsstring) (rule : Rule) :
  JsObj.wf cfg = true ->
  In (p, columns) cfg -> In c columns ->
  p <> proto_key ->
  (exists v, cell csv c = Value v /\ v <> []) ->
  JsObj.get rules (normalize c) = Some rule ->
  validateString (cell csv c) (Value rule) = false ->
  exists r message,
    build csv cfg separators rules out = Ok (r, out ++ [csv])
    /\ JsObj.read (utms r) p = Some message
    /\ message
       = (if has_undefined_error csv columns
          then undefined_message csv columns ++ lit " - "
          else [])
         ++ lit "Parâmetros incorretos:"
         ++ comma_list (filter (is_invalid csv rules) columns)
    /\ In c (filter (is_invalid csv rules) columns)
    /\ contains message c
    /\ url_ga r = Some correct_parameters.
Proof.
  intros Hwf Hin Hc Hp (v & Hv & Hne) Hrule Hfail.
  assert (Hin' : In (p, columns) (JsObj.settable cfg))
    by (now apply settable_In).
  assert (Hinv : is_invalid csv rules c = true).
  { apply is_invalid_true. rewrite (lookup_own _ _ _ Hrule).
    split; [now apply is_missing_value with v|]. split; [discriminate|].
    exact Hfail. }
  assert (Hf : In c (filter (is_invalid csv rules) columns))
    by (apply filter_In; now split).
  assert (Hve : has_validation_error csv rules columns = true).
  { apply existsb_exists. now exists c. }
  assert (He : has_error csv rules columns = true).
  { unfold has_error. rewrite Hve. apply orb_true_r. }
  exists (expected_result csv rules separators (JsObj.settable cfg)),
    (error_message csv rules columns).
  split; [now apply build_run|].
  split.
  { rewrite (read_expected _ _ _ _ p columns)
      by (now apply settable_wf || assumption).
    unfold shown_value. now rewrite He. }
  rewrite (error_message_validation csv rules columns Hve).
  split; [reflexivity|]. split; [exact Hf|]. split.
  - apply contains_app_r. unfold validation_message.
    apply contains_app_r. now apply comma_list_contains.
  - cbn [url_ga expected_result].
    replace (any_error csv rules (JsObj.settable cfg)) with true;
      [reflexivity|].
    symmetry. apply any_error_true. now exists p, columns.
Qed.

Lemma build_invalid_column_witness :
  JsObj.wf Sample.cfg2 = true
  /\ cell Sample.row2 (lit "Tipo de Compra") = Value (lit "CPC")
  /\ JsObj.get Sample.rules2 (normalize (lit "Tipo de Compra"))
     = Some [lit "cpa"; lit "cpm"]
  /\ validateString (Value (lit "CPC")) (Value [lit "cpa"; lit "cpm"]) = false
  /\ exists r,
       build Sample.row2 Sample.cfg2 Sample.separators Sample.rules2 []
       = Ok (r, [Sample.row2])
       /\ JsObj.read (utms r) (lit "utm_source")
          = Some (lit "Parâmetros incorretos: Tipo de Compra")
       /\ JsObj.read (utms r) (lit "utm_medium")
          = Some (lit "Parâmetros não encontrados: Período, Formato - Parâmetros incorretos: Tipo de Compra")
       /\ url_ga r = Some correct_parameters.
Proof.
  assert (Hwf : JsObj.wf Sample.cfg2 = true) by (vm_compute; reflexivity).
  assert (Hcell : cell Sample.row2 (lit "Tipo de Compra") = Value (lit "CPC"))
    by (vm_compute; reflexivity).
  assert (Hrule : JsObj.get Sample.rules2 (normalize (lit "Tipo de Compra"))
                  = Some [lit "cpa"; lit "cpm"])
    by (vm_compute; reflexivity).
  assert (Hfail : validateString (cell Sample.row2 (lit "Tipo de Compra"))
                    (Value [lit "cpa"; lit "cpm"]) = false)
    by (vm_compute; reflexivity).
  assert (Hpresent : exists v, cell Sample.row2 (lit "Tipo de Compra")
                               = Value v
                               /\ v <> []).
  { exists (lit "CPC"). split; [exact Hcell | vm_compute; discriminate]. }
  assert (Hs : lit "utm_source" <> proto_key) by (vm_compute; discriminate).
  assert (Hm : lit "utm_medium" <> proto_key) by (vm_compute; discriminate).
  split; [exact Hwf|]. split; [exact Hcell|]. split; [exact Hrule|].
  split; [vm_compute; reflexivity|].
  destruct (build_invalid_column _ _ Sample.row2 Sample.cfg2
              Sample.separators Sample.rules2 []
              (lit "utm_source") [lit "Veículo"; lit "Tipo de Compra"]
              (lit "Tipo de Compra") [lit "cpa"; lit "cpm"] Hwf)
    as (r & message & Hb & Hr & Hmsg & _ & _ & Hurl);
    [now left | right; now left | exact Hs | exact Hpresent | exact Hrule
     | exact Hfail |].
  destruct (build_invalid_column _ _ Sample.row2 Sample.cfg2
              Sample.separators Sample.rules2 []
              (lit "utm_medium")
              [lit "Período"; lit "Tipo de Compra"; lit "Formato"]
              (lit "Tipo de Compra") [lit "cpa"; lit "cpm"] Hwf)
    as (r' & message' & Hb' & Hr' & Hmsg' & _ & _ & _);
    [right; now left | right; now left | exact Hm | exact Hpresent
     | exact Hrule | exact Hfail |].
  assert (r' = r) by congruence. subst r'.
  exists r. split; [exact Hb|].
  split; [rewrite Hr, Hmsg; vm_compute; reflexivity|].
  split; [rewrite Hr', Hmsg'; vm_compute; reflexivity | exact Hurl].
Defined.

(** X2. With an empty configuration the build returns an empty [utms] and
    ['url ga'] is [row.url] followed by [?] alone (["undefined?"] for a
    row without [url]), whatever the row, the rules and the separators. *)
Theorem build_empty_config
    (Rule : Type) (SU : StringUtils Rule)
    (csv : JsObj.t jsstring) (separators : Separators)
    (rules : JsObj.t Rule) (out : Console) :
  build csv JsObj.empty separators rules out
  = Ok ({| utms := JsObj.empty;
           url_ga := Some (template (JsObj.get csv (lit "url")) ++ lit "?") |},
        out ++ [csv]).
Proof.
  rewrite build_run by reflexivity.
  unfold JsObj.empty. rewrite settable_nil.
  unfold expected_result, composed_url. cbn [map any_error existsb url_pairs
                                             join].
  now rewrite app_nil_r.
Qed.

(** X3. A parameter other than [__proto__] configured with no column has
    no error: its flags stay unset and [utms] holds for it the composed
    value of the empty accumulator,
    [replaceWhiteSpace(normalize('').slice(0, -1), space)]. *)
Theorem build_parameter_without_columns
    (Rule : Type) (SU : StringUtils Rule)
    (csv : JsObj.t jsstring) (cfg : JsObj.t (list jsstring))
    (separators : Separators) (rules : JsObj.t Rule) (out : Console)
    (p : jsstring) :
  JsObj.wf cfg = true ->
  In (p, []) cfg ->
  p <> proto_key ->
  exists g r,
    new_GA csv cfg separators rules out = Ok (g, out ++ [csv])
    /\ buildedFields (g, out ++ [csv]) = Ok (r, (g, out ++ [csv]))
    /\ JsObj.get (_hasUndefinedParameterError g) p = Some false
    /\ JsObj.get (_hasValidationError g) p = Some false
    /\ JsObj.read (utms r) p
       = Some (replaceWhiteSpace (slice_0_m1 (normalize []))
                 (sep_spaceSeparator separators)).
Proof.
  intros Hwf Hin Hp. pose proof (proj1 (wf_NoDup cfg) Hwf) as Hnd.
  pose proof (settable_NoDup _ Hnd) as Hnd'.
  assert (Hin' : In (p, []) (JsObj.settable cfg)) by (now apply settable_In).
  exists (built_GA csv rules separators cfg),
    (expected_result csv rules separators (JsObj.settable cfg)).
  split; [now apply new_GA_run|].
  split; [now apply buildedFields_run|].
  cbn [_hasUndefinedParameterError _hasValidationError built_GA].
  rewrite !(get_per_utm (JsObj.settable cfg) _ p []) by assumption.
  rewrite (read_expected _ _ _ _ p [])
    by (now apply settable_wf || assumption).
  repeat split.
Qed.

Lemma build_parameter_without_columns_witness :
  JsObj.wf [(lit "utm_source", [lit "source"]); (lit "utm_term", [])] = true
  /\ lit "utm_term" <> proto_key
  /\ exists r,
       build Sample.row
         [(lit "utm_source", [lit "source"]); (lit "utm_term", [])]
         Sample.separators Sample.no_rules []
       = Ok (r, [Sample.row])
       /\ JsObj.read (utms r) (lit "utm_term") = Some []
       /\ url_ga r = Some (lit "http://x.com?utm_source=google&utm_term=").
Proof.
  assert (Hwf : JsObj.wf [(lit "utm_source", [lit "source"]);
                          (lit "utm_term", [])] = true)
    by (vm_compute; reflexivity).
  assert (Hp : lit "utm_term" <> proto_key) by (vm_compute; discriminate).
  split; [exact Hwf|]. split; [exact Hp|].
  destruct (build_parameter_without_columns _ _ Sample.row
              [(lit "utm_source", [lit "source"]); (lit "utm_term", [])]
              Sample.separators Sample.no_rules [] (lit "utm_term") Hwf)
    as (g & r & Hg & Hr & _ & _ & Hread); [right; now left | exact Hp |].
  exists r. split; [eapply build_ok; eassumption|].
  split; [rewrite Hread; vm_compute; reflexivity|].
  rewrite new_GA_run in Hg by exact Hwf. injection Hg as <-.
  rewrite buildedFields_run in Hr by exact Hwf. injection Hr as <-.
  vm_compute. reflexivity.
Defined.

(** X4. After construction the five internal objects have exactly the keys
    of the configuration other than [__proto__], in its order. For a
    parameter other than [__proto__], the undefined-parameter flag is
    [true] exactly when the read of one of its columns gives [undefined]
    or the empty string, and the validation flag is [true] exactly when
    one of its columns passes that check, the read of its rule gives
    something and the validator rejects the value against it; otherwise
    the flag is [false]. *)
Theorem constructor_flags
    (Rule : Type) (SU : StringUtils Rule)
    (csv : JsObj.t jsstring) (cfg : JsObj.t (list jsstring))
    (separators : Separators) (rules : JsObj.t Rule) (out : Console) :
  JsObj.wf cfg = true ->
  exists g,
    new_GA csv cfg separators rules out = Ok (g, out ++ [csv])
    /\ JsObj.keys (_utms g) = JsObj.keys (JsObj.settable cfg)
    /\ JsObj.keys (_hasValidationError g) = JsObj.keys (JsObj.settable cfg)
    /\ JsObj.keys (_hasUndefinedParameterError g)
       = JsObj.keys (JsObj.settable cfg)
    /\ JsObj.keys (_validationErrorMessage g)
       = JsObj.keys (JsObj.settable cfg)
    /\ JsObj.keys (_undefinedParameterErroMessage g)
       = JsObj.keys (JsObj.settable cfg)
    /\ (~ In proto_key (JsObj.keys cfg) -> JsObj.settable cfg = cfg)
    /\ forall p columns,
         In (p, columns) cfg -> p <> proto_key ->
         exists missing invalid,
           JsObj.get (_hasUndefinedParameterError g) p = Some missing
           /\ JsObj.get (_hasValidationError g) p = Some invalid
           /\ (missing = true <->
               exists c, In c columns
                         /\ (cell csv c = Undefined \/ cell csv c = Value []))
           /\ (invalid = true <->
               exists c, In c columns
                         /\ is_missing csv c = false
                         /\ JsObj.lookup rules (normalize c) <> Undefined
                         /\ validateString (cell csv c)
                              (JsObj.lookup rules (normalize c)) = false).
Proof.
  intros Hwf. pose proof (proj1 (wf_NoDup cfg) Hwf) as Hnd.
  pose proof (settable_NoDup _ Hnd) as Hnd'.
  exists (built_GA csv rules separators cfg).
  split; [now apply new_GA_run|].
  cbn [_utms _hasValidationError _hasUndefinedParameterError
       _validationErrorMessage _undefinedParameterErroMessage built_GA].
  rewrite !keys_per_utm. repeat (split; [reflexivity|]).
  split; [apply settable_all|].
  intros p columns Hin Hp.
  assert (Hin' : In (p, columns) (JsObj.settable cfg))
    by (now apply settable_In).
  exists (has_undefined_error csv columns),
    (has_validation_error csv rules columns).
  rewrite !(get_per_utm (JsObj.settable cfg) _ p columns) by assumption.
  split; [reflexivity|]. split; [reflexivity|]. split.
  - apply has_undefined_error_true.
  - apply has_validation_error_true.
Qed.

Lemma constructor_flags_witness :
  JsObj.wf Sample.cfg2 = true
  /\ exists g,
       new_GA Sample.row2 Sample.cfg2 Sample.separators Sample.rules2 []
       = Ok (g, [Sample.row2])
       /\ JsObj.get (_hasUndefinedParameterError g) (lit "utm_source")
          = Some false
       /\ JsObj.get (_hasValidationError g) (lit "utm_source") = Some true
       /\ JsObj.get (_hasUndefinedParameterError g) (lit "utm_medium")
          = Some true
       /\ JsObj.keys (_hasValidationError g)
          = [lit "utm_source"; lit "utm_medium"; lit "utm_campaign"].
Proof.
  assert (Hwf : JsObj.wf Sample.cfg2 = true) by (vm_compute; reflexivity).
  split; [exact Hwf|].
  destruct (constructor_flags _ _ Sample.row2 Sample.cfg2 Sample.separators
              Sample.rules2 [] Hwf)
    as (g & Hg & _ & Hk & _).
  exists g. split; [exact Hg|].
  rewrite Hk.
  rewrite new_GA_run in Hg by exact Hwf. injection Hg as <-.
  repeat split; vm_compute; reflexivity.
Defined.

(** X5. The constructor always composes [url], errors or not: it is
    [row.url], [?] and the pairs [param=] value kept in [_utms], over the
    keys of [_utms] (the parameters other than [__proto__]), joined by
    [&], so it is never the sentinel; the sentinel is only what
    [buildedFields] substitutes for it. *)
Theorem constructor_url
    (Rule : Type) (SU : StringUtils Rule)
    (csv : JsObj.t jsstring) (cfg : JsObj.t (list jsstring))
    (separators : Separators) (rules : JsObj.t Rule) (out : Console) :
  JsObj.wf cfg = true ->
  exists g,
    new_GA csv cfg separators rules out = Ok (g, out ++ [csv])
    /\ JsObj.keys (_utms g) = JsObj.keys (JsObj.settable cfg)
    /\ url g
       = Some (template (JsObj.get csv (lit "url")) ++ lit "?"
                 ++ join (lit "&")
                      (map (fun utm =>
                              utm ++ lit "="
                                ++ template (JsObj.get (_utms g) utm))
                         (JsObj.keys (_utms g))))
    /\ url g <> Some correct_parameters.
Proof.
  intros Hwf. pose proof (proj1 (wf_NoDup cfg) Hwf) as Hnd.
  pose proof (settable_NoDup _ Hnd) as Hnd'.
  exists (built_GA csv rules separators cfg).
  split; [now apply new_GA_run|].
  split; [cbn [_utms built_GA]; apply keys_per_utm|].
  assert (Hurl : url (built_GA csv rules separators cfg)
                 = Some (template (JsObj.get csv (lit "url")) ++ lit "?"
                           ++ join (lit "&")
                                (map (fun utm =>
                                        utm ++ lit "="
                                          ++ template
                                               (JsObj.get
                                                  (_utms (built_GA csv rules
                                                            separators cfg))
                                                  utm))
                                   (JsObj.keys
                                      (_utms (built_GA csv rules separators
                                                cfg)))))).
  { cbn [url _utms built_GA]. unfold kept_url. do 3 f_equal.
    rewrite <- slice_pairs_join. f_equal. rewrite keys_per_utm.
    unfold JsObj.keys. rewrite !flat_map_concat_map, map_map. f_equal.
    apply map_ext_in. intros [utm columns] Hin. cbn [fst snd].
    rewrite (get_per_utm (JsObj.settable cfg) _ utm columns) by assumption.
    now rewrite <- !app_assoc. }
  split; [exact Hurl|].
  rewrite Hurl. intros [= H].
  apply correct_parameters_no_question_mark. rewrite <- H.
  apply in_or_app. right. now left.
Qed.

Lemma constructor_url_witness :
  JsObj.wf Sample.cfg2 = true
  /\ any_error Sample.row2 Sample.rules2 Sample.cfg2 = true
  /\ exists g,
       new_GA Sample.row2 Sample.cfg2 Sample.separators Sample.rules2 []
       = Ok (g, [Sample.row2])
       /\ url g
          = Some (lit "http://x.com?utm_source=google-ads_cpc&utm_medium=cpc&utm_campaign=verao-2021").
Proof.
  assert (Hwf : JsObj.wf Sample.cfg2 = true) by (vm_compute; reflexivity).
  split; [exact Hwf|]. split; [vm_compute; reflexivity|].
  destruct (constructor_url _ _ Sample.row2 Sample.cfg2 Sample.separators
              Sample.rules2 [] Hwf) as (g & Hg & _ & Hurl & _).
  exists g. split; [exact Hg|].
  rewrite new_GA_run in Hg by exact Hwf. injection Hg as <-.
  vm_compute. reflexivity.
Defined.

(* ------------------------------------------------------------------ *)
(** ** Rows and rules that agree on the configured columns *)

Lemma flat_map_pointwise {A B : Type} (f g : A -> list B) (l : list A) :
  (forall x, In x l -> f x = g x) -> flat_map f l = flat_map g l.
Proof.
  intros H. rewrite !flat_map_concat_map. f_equal. now apply map_ext_in.
Qed.

Section Agreement.

Context {Rule : Type} {SU : StringUtils Rule}.

Variables csv csv' : JsObj.t jsstring.
Variables rules rules' : JsObj.t Rule.
Variable separators : Separators.
Variable columns : list jsstring.

Hypothesis same_cells :
  forall c, In c columns ->
            cell csv c = cell csv' c
            /\ JsObj.get rules (normalize c) = JsObj.get rules' (normalize c).

Lemma is_missing_same c : In c columns -> is_missing csv c = is_missing csv' c.
Proof.
  intros Hc. unfold is_missing. now rewrite (proj1 (same_cells c Hc)).
Qed.

Lemma is_invalid_same c :
  In c columns -> is_invalid csv rules c = is_invalid csv' rules' c.
Proof.
  intros Hc. unfold is_invalid, is_present, breaks_rule, JsObj.lookup.
  rewrite (is_missing_same c Hc).
  destruct (same_cells c Hc) as [-> ->]. reflexivity.
Qed.

Lemma has_error_same :
  has_error csv rules columns = has_error csv' rules' columns.
Proof.
  unfold has_error, has_undefined_error, has_validation_error.
  rewrite (existsb_pointwise _ _ columns is_missing_same).
  now rewrite (existsb_pointwise _ _ columns is_invalid_same).
Qed.

Lemma composed_value_same :
  composed_value csv separators columns
  = composed_value csv' separators columns.
Proof.
  unfold composed_value, joined_values. do 3 f_equal.
  apply flat_map_pointwise. intros c Hc.
  now rewrite (proj1 (same_cells c Hc)).
Qed.

Lemma shown_value_same :
  shown_value csv rules separators columns
  = shown_value csv' rules' separators columns.
Proof.
  unfold shown_value. rewrite has_error_same, composed_value_same.
  unfold error_message, has_undefined_error, has_validation_error,
    undefined_message, validation_message.
  rewrite (existsb_pointwise _ _ columns is_missing_same).
  rewrite (existsb_pointwise _ _ columns is_invalid_same).
  rewrite (filter_pointwise _ _ columns is_missing_same).
  now rewrite (filter_pointwise _ _ columns is_invalid_same).
Qed.

End Agreement.

(** X6. The result of a build depends on the row only through [url] and
    the cells of the configured columns, and on the rules only through
    those of the configured columns: two rows and two rule sets that agree
    there give the same [BuildResult] (only the printed row differs). *)
Theorem build_ignores_other_columns
    (Rule : Type) (SU : StringUtils Rule)
    (csv csv' : JsObj.t jsstring) (cfg : JsObj.t (list jsstring))
    (separators : Separators) (rules rules' : JsObj.t Rule) (out : Console) :
  JsObj.wf cfg = true ->
  JsObj.get csv (lit "url") = JsObj.get csv' (lit "url") ->
  (forall p columns c,
      In (p, columns) cfg -> In c columns ->
      cell csv c = cell csv' c
      /\ JsObj.get rules (normalize c) = JsObj.get rules' (normalize c)) ->
  exists r,
    build csv cfg separators rules out = Ok (r, out ++ [csv])
    /\ build csv' cfg separators rules' out = Ok (r, out ++ [csv']).
Proof.
  intros Hwf Hurl Hsame.
  assert (Hsame' : forall p columns c,
             In (p, columns) (JsObj.settable cfg) -> In c columns ->
             cell csv c = cell csv' c
             /\ JsObj.get rules (normalize c)
                = JsObj.get rules' (normalize c)).
  { intros p columns c Hin Hc. apply settable_In in Hin as [Hin _].
    now apply (Hsame p columns c). }
  exists (expected_result csv rules separators (JsObj.settable cfg)).
  split; [now apply build_run|].
  rewrite build_run by assumption. do 2 f_equal. symmetry.
  unfold expected_result. f_equal.
  - apply map_ext_in. intros [p columns] Hin. cbn [fst snd]. do 2 f_equal.
    apply shown_value_same. intros c Hc. now apply (Hsame' p columns c).
  - f_equal.
    assert (Hany : any_error csv rules (JsObj.settable cfg)
                   = any_error csv' rules' (JsObj.settable cfg)).
    { unfold any_error. apply existsb_pointwise.
      intros [p columns] Hin. cbn [snd].
      apply has_error_same. intros c Hc. now apply (Hsame' p columns c). }
    rewrite <- Hany.
    destruct (any_error csv rules (JsObj.settable cfg)); [reflexivity|].
    unfold composed_url, url_pairs. rewrite Hurl. do 3 f_equal.
    apply map_ext_in. intros [p columns] Hin. cbn [fst snd]. do 2 f_equal.
    apply composed_value_same with (rules := rules) (rules' := rules').
    intros c Hc. now apply (Hsame' p columns c).
Qed.

Lemma build_ignores_other_columns_witness :
  JsObj.wf Sample.cfg = true
  /\ exists r,
       build Sample.row Sample.cfg Sample.separators Sample.no_rules []
       = Ok (r, [Sample.row])
       /\ build (Sample.row ++ [(lit "content", lit "banner")]) Sample.cfg
            Sample.separators [(lit "content", [lit "video"])] []
          = Ok (r, [Sample.row ++ [(lit "content", lit "banner")]]).
Proof.
  assert (Hwf : JsObj.wf Sample.cfg = true) by (vm_compute; reflexivity).
  split; [exact Hwf|].
  destruct (build_ignores_other_columns _ _ Sample.row
              (Sample.row ++ [(lit "content", lit "banner")]) Sample.cfg
              Sample.separators Sample.no_rules
              [(lit "content", [lit "video"])] [] Hwf)
    as (r & H1 & H2).
  - vm_compute. reflexivity.
  - intros p columns c Hp Hc. cbn [In Sample.cfg] in Hp.
    destruct Hp as [E|[E|[]]]; injection E as <- <-;
      destruct Hc as [<-|[]]; split; vm_compute; reflexivity.
  - exists r. split; assumption.
Defined.

(** X7. The rules change nothing but the validation flags and messages:
    for any two rule sets the constructor leaves the same [_utms], the
    same [url] and the same undefined-parameter flags and messages. *)
Theorem rules_leave_values
    (Rule : Type) (SU : StringUtils Rule)
    (csv : JsObj.t jsstring) (cfg : JsObj.t (list jsstring))
    (separators : Separators) (rules rules' : JsObj.t Rule) (out : Console) :
  JsObj.wf cfg = true ->
  exists g g',
    new_GA csv cfg separators rules out = Ok (g, out ++ [csv])
    /\ new_GA csv cfg separators rules' out = Ok (g', out ++ [csv])
    /\ _utms g = _utms g'
    /\ url g = url g'
    /\ _hasUndefinedParameterError g = _hasUndefinedParameterError g'
    /\ _undefinedParameterErroMessage g = _undefinedParameterErroMessage g'.
Proof.
  intros Hwf.
  exists (built_GA csv rules separators cfg),
    (built_GA csv rules' separators cfg).
  split; [now apply new_GA_run|].
  split; [now apply new_GA_run|].
  repeat split.
Qed.

Lemma rules_leave_values_witness :
  JsObj.wf Sample.cfg2 = true
  /\ exists g g',
       new_GA Sample.row2 Sample.cfg2 Sample.separators Sample.rules2 []
       = Ok (g, [Sample.row2])
       /\ new_GA Sample.row2 Sample.cfg2 Sample.separators Sample.no_rules []
          = Ok (g', [Sample.row2])
       /\ _utms g = _utms g'
       /\ _hasValidationError g <> _hasValidationError g'.
Proof.
  assert (Hwf : JsObj.wf Sample.cfg2 = true) by (vm_compute; reflexivity).
  split; [exact Hwf|].
  destruct (rules_leave_values _ _ Sample.row2 Sample.cfg2 Sample.separators
              Sample.rules2 Sample.no_rules [] Hwf)
    as (g & g' & Hg & Hg' & Hu & _).
  exists g, g'. split; [exact Hg|]. split; [exact Hg'|].
  split; [exact Hu|].
  rewrite new_GA_run in Hg, Hg' by exact Hwf.
  injection Hg as <-. injection Hg' as <-.
  vm_compute. discriminate.
Defined.

(** X8. ['url ga'] agrees with [utms]: when no parameter other than
    [__proto__] has an error it is [row.url], [?] and the pairs
    [key=utms[key]] over the keys of [utms], joined by [&]; otherwise it
    is the sentinel. *)
Theorem url_built_from_utms
    (Rule : Type) (SU : StringUtils Rule)
    (csv : JsObj.t jsstring) (cfg : JsObj.t (list jsstring))
    (separators : Separators) (rules : JsObj.t Rule) (out : Console) :
  JsObj.wf cfg = true ->
  exists r,
    build csv cfg separators rules out = Ok (r, out ++ [csv])
    /\ url_ga r
       = Some (if any_error csv rules (JsObj.settable cfg)
               then correct_parameters
               else template (JsObj.get csv (lit "url")) ++ lit "?"
                      ++ join (lit "&")
                           (map (fun utm =>
                                   utm ++ lit "="
                                     ++ template (JsObj.read (utms r) utm))
                              (JsObj.keys (utms r)))).
Proof.
  intros Hwf. pose proof (settable_wf _ Hwf) as Hwf'.
  exists (expected_result csv rules separators (JsObj.settable cfg)).
  split; [now apply build_run|].
  rewrite keys_expected. cbn [url_ga expected_result]. f_equal.
  destruct (any_error csv rules (JsObj.settable cfg)) eqn:Ea; [reflexivity|].
  unfold composed_url, url_pairs, JsObj.keys. do 3 f_equal.
  rewrite map_map. apply map_ext_in. intros [p columns] Hin. cbn [fst snd].
  change (map (fun e => (fst e, Value (shown_value csv rules separators
                                         (snd e)))) (JsObj.settable cfg))
    with (utms (expected_result csv rules separators (JsObj.settable cfg))).
  rewrite (read_expected _ _ _ _ p columns) by assumption.
  unfold shown_value.
  now rewrite (proj1 (any_error_false csv rules (JsObj.settable cfg)) Ea
                 p columns Hin).
Qed.

Lemma url_built_from_utms_witness :
  JsObj.wf Sample.cfg3 = true
  /\ exists r,
       build Sample.row2 Sample.cfg3 Sample.separators Sample.rules2 []
       = Ok (r, [Sample.row2])
       /\ url_ga r = Some correct_parameters
       /\ exists r',
            build Sample.row2 Sample.cfg3 Sample.separators Sample.no_rules []
            = Ok (r', [Sample.row2])
            /\ url_ga r'
               = Some (lit "http://x.com?utm_source=google-ads_cpc&utm_campaign=verao-2021").
Proof.
  assert (Hwf : JsObj.wf Sample.cfg3 = true) by (vm_compute; reflexivity).
  split; [exact Hwf|].
  destruct (url_built_from_utms _ _ Sample.row2 Sample.cfg3 Sample.separators
              Sample.rules2 [] Hwf) as (r & Hb & Hurl).
  destruct (url_built_from_utms _ _ Sample.row2 Sample.cfg3 Sample.separators
              Sample.no_rules [] Hwf) as (r' & Hb' & Hurl').
  exists r. split; [exact Hb|]. split.
  - rewrite Hurl. vm_compute. reflexivity.
  - exists r'. split; [exact Hb'|].
    rewrite build_run in Hb' by exact Hwf. injection Hb' as <-.
    vm_compute. reflexivity.
Defined.

(* ------------------------------------------------------------------ *)
(** ** Changing the columns of one parameter *)

Lemma get_replace {V : Type} (before after : JsObj.t V) p v v' q :
  q <> p ->
  JsObj.get (before ++ (p, v) :: after) q
  = JsObj.get (before ++ (p, v') :: after) q.
Proof.
  intros Hq. induction before as [|[k x] l IH]; cbn.
  - rewrite jsstring_eqb_neq by congruence. reflexivity.
  - now rewrite IH.
Qed.

(** X9. Parameters are built independently: replacing the column list of
    one parameter changes, for every other parameter, neither the value
    kept in [_utms], nor its error flags, nor the text [utms] shows. *)
Theorem parameters_are_independent
    (Rule : Type) (SU : StringUtils Rule)
    (csv : JsObj.t jsstring) (before after : JsObj.t (list jsstring))
    (p : jsstring) (columns columns' : list jsstring)
    (separators : Separators) (rules : JsObj.t Rule) (out : Console) :
  JsObj.wf (before ++ (p, columns) :: after) = true ->
  exists g g' r r',
    new_GA csv (before ++ (p, columns) :: after) separators rules out
    = Ok (g, out ++ [csv])
    /\ buildedFields (g, out ++ [csv]) = Ok (r, (g, out ++ [csv]))
    /\ new_GA csv (before ++ (p, columns') :: after) separators rules out
       = Ok (g', out ++ [csv])
    /\ buildedFields (g', out ++ [csv]) = Ok (r', (g', out ++ [csv]))
    /\ forall q, q <> p ->
         JsObj.get (_utms g) q = JsObj.get (_utms g') q
         /\ flag_set g q = flag_set g' q
         /\ JsObj.read (utms r) q = JsObj.read (utms r') q.
Proof.
  intros Hwf.
  assert (Hwf' : JsObj.wf (before ++ (p, columns') :: after) = true).
  { unfold JsObj.wf in *. now rewrite keys_app in *. }
  exists (built_GA csv rules separators (before ++ (p, columns) :: after)),
    (built_GA csv rules separators (before ++ (p, columns') :: after)),
    (expected_result csv rules separators
       (JsObj.settable (before ++ (p, columns) :: after))),
    (expected_result csv rules separators
       (JsObj.settable (before ++ (p, columns') :: after))).
  split; [now apply new_GA_run|].
  split; [now apply buildedFields_run|].
  split; [now apply new_GA_run|].
  split; [now apply buildedFields_run|].
  intros q Hq.
  assert (Hget : forall (V : Type) (f : list jsstring -> V),
             JsObj.get
               (per_utm f (JsObj.settable (before ++ (p, columns) :: after)))
               q
             = JsObj.get
                 (per_utm f
                    (JsObj.settable (before ++ (p, columns') :: after)))
                 q).
  { intros V f. rewrite !settable_app.
    destruct (jsstring_eqb p proto_key) eqn:E.
    - apply jsstring_eqb_eq in E. subst p.
      now rewrite !settable_cons_proto.
    - assert (Hp : p <> proto_key).
      { intros ->. now rewrite jsstring_eqb_refl in E. }
      rewrite !settable_cons by assumption. rewrite !per_utm_app.
      change (per_utm f ((p, columns) :: JsObj.settable after))
        with ((p, f columns) :: per_utm f (JsObj.settable after)).
      change (per_utm f ((p, columns') :: JsObj.settable after))
        with ((p, f columns') :: per_utm f (JsObj.settable after)).
      now apply get_replace. }
  split; [|split].
  - cbn [_utms built_GA]. apply Hget.
  - unfold flag_set, built_GA, JsObj.lookup.
    cbn [_hasUndefinedParameterError _hasValidationError].
    now rewrite !Hget.
  - unfold JsObj.read. rewrite !utms_expected. now rewrite Hget.
Qed.

Lemma parameters_are_independent_witness :
  JsObj.wf ([(lit "utm_source", [lit "source"])]
              ++ (lit "utm_medium", [lit "medium"]) :: []) = true
  /\ exists r r',
       build Sample.row
         ([(lit "utm_source", [lit "source"])]
            ++ (lit "utm_medium", [lit "medium"]) :: [])
         Sample.separators Sample.no_rules []
       = Ok (r, [Sample.row])
       /\ build Sample.row
            ([(lit "utm_source", [lit "source"])]
               ++ (lit "utm_medium", [lit "canal"]) :: [])
            Sample.separators Sample.no_rules []
          = Ok (r', [Sample.row])
       /\ JsObj.read (utms r) (lit "utm_source") = Some (lit "google")
       /\ JsObj.read (utms r') (lit "utm_source") = Some (lit "google")
       /\ JsObj.read (utms r) (lit "utm_medium")
          <> JsObj.read (utms r') (lit "utm_medium").
Proof.
  assert (Hwf : JsObj.wf ([(lit "utm_source", [lit "source"])]
                            ++ (lit "utm_medium", [lit "medium"]) :: [])
                = true) by (vm_compute; reflexivity).
  split; [exact Hwf|].
  destruct (parameters_are_independent _ _ Sample.row
              [(lit "utm_source", [lit "source"])] []
              (lit "utm_medium") [lit "medium"] [lit "canal"]
              Sample.separators Sample.no_rules [] Hwf)
    as (g & g' & r & r' & Hg & Hr & Hg' & Hr' & Hq).
  destruct (Hq (lit "utm_source")) as (_ & _ & Hsame);
    [vm_compute; discriminate|].
  exists r, r'.
  split; [eapply build_ok; eassumption|].
  split; [eapply build_ok; eassumption|].
  assert (H1 : JsObj.read (utms r) (lit "utm_source") = Some (lit "google")).
  { rewrite new_GA_run in Hg by exact Hwf. injection Hg as <-.
    rewrite buildedFields_run in Hr by exact Hwf. injection Hr as <-.
    vm_compute. reflexivity. }
  split; [exact H1|]. split; [rewrite <- Hsame; exact H1|].
  rewrite new_GA_run in Hg, Hg' by (vm_compute; reflexivity).
  injection Hg as <-. injection Hg' as <-.
  rewrite buildedFields_run in Hr, Hr' by (vm_compute; reflexivity).
  injection Hr as <-. injection Hr' as <-.
  vm_compute. discriminate.
Defined.

(** X13. [slice(0, -1)] strips one code unit, not the separator: for a
    parameter other than [__proto__], without error and with at least one
    column, when [normalize] keeps a final separator as [before] and one
    more code unit, the value shown is the normalized text of the values
    joined by the separator followed by [before]; and with the empty
    separator the last code unit of the normalized text itself is
    stripped. *)
Theorem slice_strips_one_code_unit
    (Rule : Type) (SU : StringUtils Rule)
    (csv : JsObj.t jsstring) (cfg : JsObj.t (list jsstring))
    (separators : Separators) (rules : JsObj.t Rule) (out : Console)
    (p : jsstring) (columns : list jsstring) :
  JsObj.wf cfg = true ->
  In (p, columns) cfg ->
  p <> proto_key ->
  columns <> [] ->
  has_error csv rules columns = false ->
  exists r,
    build csv cfg separators rules out = Ok (r, out ++ [csv])
    /\ (forall before u,
           (forall s, normalize (s ++ sep_separator separators)
                      = normalize s ++ before ++ [u]) ->
           JsObj.read (utms r) p
           = Some (replaceWhiteSpace
                     (normalize (separated_values csv separators columns)
                        ++ before)
                     (sep_spaceSeparator separators)))
    /\ (sep_separator separators = [] ->
        JsObj.read (utms r) p
        = Some (replaceWhiteSpace
                  (slice_0_m1
                     (normalize (separated_values csv separators columns)))
                  (sep_spaceSeparator separators))).
Proof.
  intros Hwf Hin Hp Hne He.
  exists (expected_result csv rules separators (JsObj.settable cfg)).
  split; [now apply build_run|].
  rewrite (read_expected _ _ _ _ p columns)
    by (now apply settable_wf || now apply settable_In).
  unfold shown_value. rewrite He. unfold composed_value.
  rewrite joined_values_separated by assumption.
  split.
  - intros before u Hn. rewrite Hn. unfold slice_0_m1.
    now rewrite !app_assoc, removelast_last.
  - intros ->. now rewrite app_nil_r.
Qed.

Lemma slice_strips_one_code_unit_witness :
  JsObj.wf Sample.cfg = true
  /\ lit "utm_source" <> proto_key
  /\ (forall s,
         normalize (StringUtils := Sample.utils) (s ++ lit "__")
         = normalize (StringUtils := Sample.utils) s ++ lit "_" ++ [95%N])
  /\ exists r,
       build Sample.row Sample.cfg
         {| sep_separator := lit "__"; sep_spaceSeparator := lit "-" |}
         Sample.no_rules []
       = Ok (r, [Sample.row])
       /\ JsObj.read (utms r) (lit "utm_source") = Some (lit "google_")
       /\ exists r',
            build Sample.row Sample.cfg
              {| sep_separator := []; sep_spaceSeparator := lit "-" |}
              Sample.no_rules []
            = Ok (r', [Sample.row])
            /\ JsObj.read (utms r') (lit "utm_source") = Some (lit "googl").
Proof.
  assert (Hwf : JsObj.wf Sample.cfg = true) by (vm_compute; reflexivity).
  assert (Hp : lit "utm_source" <> proto_key) by (vm_compute; discriminate).
  assert (Hn : forall s,
             normalize (StringUtils := Sample.utils) (s ++ lit "__")
             = normalize (StringUtils := Sample.utils) s ++ lit "_" ++ [95%N]).
  { intros s. cbn [normalize Sample.utils]. unfold Sample.normalize.
    rewrite filter_app, map_app. f_equal. }
  split; [exact Hwf|]. split; [exact Hp|]. split; [exact Hn|].
  destruct (slice_strips_one_code_unit _ _ Sample.row Sample.cfg
              {| sep_separator := lit "__"; sep_spaceSeparator := lit "-" |}
              Sample.no_rules [] (lit "utm_source") [lit "source"] Hwf)
    as (r & Hb & Hmany & _);
    [now left | exact Hp | discriminate | vm_compute; reflexivity |].
  destruct (slice_strips_one_code_unit _ _ Sample.row Sample.cfg
              {| sep_separator := []; sep_spaceSeparator := lit "-" |}
              Sample.no_rules [] (lit "utm_source") [lit "source"] Hwf)
    as (r' & Hb' & _ & Hempty);
    [now left | exact Hp | discriminate | vm_compute; reflexivity |].
  exists r. split; [exact Hb|]. split.
  - rewrite (Hmany (lit "_") 95%N Hn). vm_compute. reflexivity.
  - exists r'. split; [exact Hb'|].
    rewrite (Hempty eq_refl). vm_compute. reflexivity.
Defined.

(** X14. A parameter named [__proto__] is ignored: every write the class
    makes under that name reaches the setter of [Object.prototype], so
    the build returns what it returns for the configuration without that
    parameter. *)
Theorem proto_parameter_is_ignored
    (Rule : Type) (SU : StringUtils Rule)
    (csv : JsObj.t jsstring) (cfg : JsObj.t (list jsstring))
    (separators : Separators) (rules : JsObj.t Rule) (out : Console) :
  JsObj.wf cfg = true ->
  build csv cfg separators rules out
  = build csv (JsObj.settable cfg) separators rules out
  /\ exists r,
       build csv cfg separators rules out = Ok (r, out ++ [csv])
       /\ JsObj.get (utms r) proto_key = None
       /\ forall before after columns,
            cfg = before ++ (proto_key, columns) :: after ->
            build csv (before ++ after) separators rules out
            = Ok (r, out ++ [csv]).
Proof.
  intros Hwf. pose proof (settable_wf _ Hwf) as Hwf'. split.
  - rewrite !build_run by assumption. now rewrite settable_idem.
  - exists (expected_result csv rules separators (JsObj.settable cfg)).
    split; [now apply build_run|]. split.
    + apply get_absent. rewrite keys_expected. apply settable_no_proto.
    + intros before after columns ->.
      assert (Hwf2 : JsObj.wf (before ++ after) = true).
      { apply wf_NoDup. apply wf_NoDup in Hwf.
        rewrite keys_app in *. cbn [JsObj.keys map fst] in Hwf.
        now apply NoDup_remove_1 in Hwf. }
      rewrite build_run by assumption.
      now rewrite !settable_app, settable_cons_proto.
Qed.

Lemma proto_parameter_is_ignored_witness :
  JsObj.wf Sample.cfg_proto_missing = true
  /\ build Sample.row_no_medium Sample.cfg_proto_missing Sample.separators
       Sample.no_rules []
     = build Sample.row_no_medium Sample.cfg_source Sample.separators
         Sample.no_rules []
  /\ build Sample.row_no_medium Sample.cfg_source Sample.separators
       Sample.no_rules []
     = Ok ({| utms := [(lit "utm_source", Value (lit "google"))];
              url_ga := Some (lit "http://x.com?utm_source=google") |},
           [Sample.row_no_medium]).
Proof.
  assert (Hwf : JsObj.wf Sample.cfg_proto_missing = true)
    by (vm_compute; reflexivity).
  split; [exact Hwf|]. split.
  - rewrite (proj1 (proto_parameter_is_ignored _ _ Sample.row_no_medium
                      Sample.cfg_proto_missing Sample.separators
                      Sample.no_rules [] Hwf)).
    reflexivity.
  - vm_compute. reflexivity.
Defined.

(* ================================================================== *)
(** * The queries of [UserDAO] *)
(* ================================================================== *)

Lemma no_slash_In (s : jsstring) : no_slash s = true <-> ~ In slash s.
Proof.
  unfold no_slash. rewrite forallb_forall. split.
  - intros H Hin. specialize (H slash Hin).
    now rewrite N.eqb_refl in H.
  - intros H u Hu. apply negb_true_iff. apply N.eqb_neq.
    intros ->. contradiction.
Qed.

Lemma no_slash_cons u s :
  no_slash (u :: s) = negb (u =? slash)%N && no_slash s.
Proof. reflexivity. Qed.

Lemma has_slash_app (prefix s : jsstring) :
  no_slash (prefix ++ slash :: s) = false.
Proof.
  destruct (no_slash (prefix ++ slash :: s)) eqn:E; [|reflexivity].
  apply no_slash_In in E. exfalso. apply E.
  apply in_or_app. right. now left.
Qed.

Lemma match_last_segment_whole (s : jsstring) :
  s <> [] -> no_slash s = true -> match_last_segment s = Some s.
Proof.
  destruct s as [|u s]; [congruence|]. intros _ H.
  cbn [match_last_segment]. now rewrite H.
Qed.

Lemma match_last_segment_after (prefix id : jsstring) :
  match_last_segment (prefix ++ slash :: id) = match_last_segment id.
Proof.
  induction prefix as [|u prefix IH].
  - cbn [app match_last_segment]. rewrite no_slash_cons, N.eqb_refl.
    reflexivity.
  - change ((u :: prefix) ++ slash :: id) with (u :: prefix ++ slash :: id).
    cbn [match_last_segment].
    rewrite no_slash_cons, has_slash_app, andb_false_r. exact IH.
Qed.

Lemma match_last_segment_Some (path id : jsstring) :
  match_last_segment path = Some id ->
  id <> [] /\ no_slash id = true
  /\ exists prefix,
       path = prefix ++ id
       /\ (prefix = [] \/ exists before, prefix = before ++ [slash]).
Proof.
  induction path as [|u rest IH]; [discriminate|].
  cbn [match_last_segment].
  destruct (no_slash (u :: rest)) eqn:E.
  - intros [= <-]. split; [discriminate|]. split; [exact E|].
    exists []. split; [reflexivity | now left].
  - intros H. destruct (IH H) as (Hne & Hns & prefix & -> & Hp).
    split; [exact Hne|]. split; [exact Hns|].
    exists (u :: prefix). split; [reflexivity|]. right.
    destruct Hp as [->|(before & ->)].
    + exists []. cbn [app] in *. f_equal.
      rewrite no_slash_cons, Hns, andb_true_r in E.
      apply negb_false_iff, N.eqb_eq in E. exact E.
    + now exists (u :: before).
Qed.

Lemma match_last_segment_None (path : jsstring) :
  match_last_segment path = None <->
  path = [] \/ exists before, path = before ++ [slash].
Proof.
  split.
  - induction path as [|u rest IH]; [now left|].
    cbn [match_last_segment].
    destruct (no_slash (u :: rest)) eqn:E; [discriminate|].
    intros H. right. destruct (IH H) as [->|(before & ->)].
    + exists []. cbn [app]. f_equal.
      cbn in E. rewrite andb_true_r in E.
      now apply negb_false_iff, N.eqb_eq in E.
    + now exists (u :: before).
  - intros [->|(before & ->)]; [reflexivity|].
    now rewrite match_last_segment_after.
Qed.

(** X10. The id the queries take from a document path,
    [path.match(/[^/]+$/)], is the text after the last [/]: it is not
    empty, holds no [/], and the path is a prefix that is empty or ends in
    [/] followed by it; for [prefix + "/" + id] it is [id]. The match is
    [null] exactly for the empty path and for a path that ends in [/]. *)
Theorem match_last_segment_spec :
  (forall path id,
      match_last_segment path = Some id ->
      id <> [] /\ no_slash id = true
      /\ exists prefix,
           path = prefix ++ id
           /\ (prefix = [] \/ exists before, prefix = before ++ [slash]))
  /\ (forall prefix id,
         id <> [] -> no_slash id = true ->
         match_last_segment (prefix ++ slash :: id) = Some id)
  /\ (forall path,
         match_last_segment path = None <->
         path = [] \/ exists before, path = before ++ [slash]).
Proof.
  split; [exact match_last_segment_Some|]. split.
  - intros prefix id Hne Hns. rewrite match_last_segment_after.
    now apply match_last_segment_whole.
  - exact match_last_segment_None.
Qed.

Lemma match_last_segment_spec_witness :
  match_last_segment (lit "tokens/a1") = Some (lit "a1")
  /\ match_last_segment (lit "tokens/") = None
  /\ match_last_segment (lit "a1") = Some (lit "a1").
Proof.
  split; [|split].
  - apply (proj1 (proj2 match_last_segment_spec) (lit "tokens") (lit "a1"));
      [vm_compute; discriminate | vm_compute; reflexivity].
  - apply (proj2 (proj2 match_last_segment_spec)). right.
    exists (lit "tokens"). vm_compute. reflexivity.
  - vm_compute. reflexivity.
Defined.

Section UserDAOFacts.

Context {Field User Foreign : Type}.

Variable compareSync :
  option jsstring -> option Field -> outcome (dao_error Foreign) bool.
Variable new_User :
  jsstring -> option Field -> option Field -> option Field -> option Field ->
  option Field -> User.
Variable password : option jsstring.

Local Notation "'accepted'" := (document_accepted compareSync password).
Local Notation "'id_loop' docs" :=
  (forEach_document docs tt
     (fun _ documentSnapshot =>
        match getUserId_document compareSync password documentSnapshot with
        | Resolved _ => Resolved tt
        | Rejected e => Rejected e
        end)) (at level 10, docs at level 9).

Lemma getUserId_document_accepted d :
  accepted d <->
  exists id, getUserId_document compareSync password d = Resolved id.
Proof.
  unfold document_accepted, getUserId_document. split.
  - intros [-> Hs]. cbn.
    destruct (match_last_segment (ref_path d)) as [id|]; [|congruence].
    now exists id.
  - intros (id & H).
    destruct (compareSync password _) as [[|]|e]; cbn in H; try discriminate.
    destruct (match_last_segment (ref_path d)); [|discriminate].
    split; [reflexivity | discriminate].
Qed.

Lemma id_loop_accepted docs :
  id_loop docs = Resolved tt <-> Forall accepted docs.
Proof.
  induction docs as [|d docs IH]; cbn [forEach_document].
  - split; [constructor | reflexivity].
  - destruct (getUserId_document compareSync password d) as [id|e] eqn:E.
    + rewrite IH. split.
      * intros H. constructor; [|assumption].
        apply getUserId_document_accepted. now exists id.
      * intros H. now inversion H.
    + split; [discriminate|]. intros H. inversion H as [|? ? Hd _]; subst.
      apply getUserId_document_accepted in Hd as (id & Hd). congruence.
Qed.

Lemma id_loop_first_failure ok d rest e :
  Forall accepted ok ->
  getUserId_document compareSync password d = Rejected e ->
  id_loop (ok ++ d :: rest) = Rejected e.
Proof.
  intros Hok Hd. induction Hok as [|d0 ok Hd0 _ IH]; cbn [app forEach_document].
  - now rewrite Hd.
  - apply getUserId_document_accepted in Hd0 as (id & ->). exact IH.
Qed.

Lemma getUserId_nonempty d docs :
  getUserId compareSync password (Resolved (d :: docs))
  = match id_loop (d :: docs) with
    | Resolved _ => Resolved None
    | Rejected err => Rejected err
    end.
Proof. reflexivity. Qed.

Lemma user_loop_accepted docs : forall user d id,
  Forall accepted docs -> accepted d ->
  match_last_segment (ref_path d) = Some id ->
  forEach_document (docs ++ [d]) user
    (getUser_document compareSync new_User password)
  = Resolved
      (Some (new_User id
               (JsObj.get (doc_fields d) (lit "permission"))
               (JsObj.get (doc_fields d) (lit "company"))
               (JsObj.get (doc_fields d) (lit "email"))
               (JsObj.get (doc_fields d) (lit "activate"))
               (JsObj.get (doc_fields d) (lit "agency")))).
Proof.
  induction docs as [|d0 docs IH]; intros user d id Hok [Hpw Hseg] Hid;
    cbn [app forEach_document].
  - unfold getUser_document. rewrite Hid, Hpw. reflexivity.
  - inversion Hok as [|? ? [Hpw0 Hseg0] Hok']; subst.
    unfold getUser_document at 1.
    destruct (match_last_segment (ref_path d0)) as [id0|]; [|congruence].
    rewrite Hpw0. cbn [negb]. apply IH; [assumption | now split | assumption].
Qed.

Lemma user_loop_first_failure ok d rest e : forall user,
  Forall accepted ok ->
  (forall u, getUser_document compareSync new_User password u d = Rejected e) ->
  forEach_document (ok ++ d :: rest) user
    (getUser_document compareSync new_User password)
  = Rejected e.
Proof.
  intros user Hok Hd. revert user.
  induction Hok as [|d0 ok [Hpw0 Hseg0] _ IH]; intros user;
    cbn [app forEach_document].
  - now rewrite Hd.
  - unfold getUser_document at 1.
    destruct (match_last_segment (ref_path d0)) as [id0|]; [|congruence].
    rewrite Hpw0. cbn [negb]. apply IH.
Qed.

Lemma user_loop_defined docs : forall user r,
  forEach_document docs user (getUser_document compareSync new_User password)
  = Resolved r ->
  r = None -> docs = [] /\ user = None.
Proof.
  induction docs as [|d docs IH]; intros user r; cbn [forEach_document].
  - intros [= <-] ->. now split.
  - destruct (getUser_document compareSync new_User password user d)
      as [u|e] eqn:E; [|discriminate].
    intros H Hr. destruct (IH u r H Hr) as [_ ->].
    unfold getUser_document in E.
    destruct (match_last_segment (ref_path d)); [|discriminate].
    destruct (compareSync password _) as [[|]|]; discriminate.
Qed.

End UserDAOFacts.

(** X11. [getUserId] never resolves with an id: the callback's [return]
    is dropped by [forEach], so the promise resolves with [undefined], and
    it does so exactly when the query found at least one document and
    every document found has a matching password and a path with a last
    segment. An empty result rejects with ["ID não encontrado!"]; the
    first document that fails rejects with the wrong-password message when
    the check returns [false] (whatever its path), with
    ["Falha ao recuperar o ID do usuário"] when only its path has no last
    segment, and with the checker's own error when the check throws; a
    rejected query is passed on. *)
Theorem getUserId_outcome :
  forall (Field Foreign : Type)
         (compareSync :
            option jsstring -> option Field -> outcome (dao_error Foreign) bool)
         (password : option jsstring),
    (forall query id,
        getUserId compareSync password query <> Resolved (Some id))
    /\ (forall err,
           getUserId compareSync password (Rejected err) = Rejected err)
    /\ getUserId compareSync password (Resolved [])
       = Rejected (Error (lit "ID não encontrado!"))
    /\ (forall docs,
           docs <> [] ->
           (getUserId compareSync password (Resolved docs) = Resolved None
            <-> Forall (document_accepted compareSync password) docs))
    /\ (forall ok d rest,
           Forall (document_accepted compareSync password) ok ->
           compareSync password (JsObj.get (doc_fields d) (lit "password"))
           = Resolved false ->
           getUserId compareSync password (Resolved (ok ++ d :: rest))
           = Rejected (Error (lit "Email ou senha incorreto(s)!")))
    /\ (forall ok d rest,
           Forall (document_accepted compareSync password) ok ->
           compareSync password (JsObj.get (doc_fields d) (lit "password"))
           = Resolved true ->
           match_last_segment (ref_path d) = None ->
           getUserId compareSync password (Resolved (ok ++ d :: rest))
           = Rejected (Error (lit "Falha ao recuperar o ID do usuário")))
    /\ (forall ok d rest e,
           Forall (document_accepted compareSync password) ok ->
           compareSync password (JsObj.get (doc_fields d) (lit "password"))
           = Rejected e ->
           getUserId compareSync password (Resolved (ok ++ d :: rest))
           = Rejected e).
Proof.
  intros Field Foreign compareSync password.
  assert (Hfail : forall ok d rest e,
             Forall (document_accepted compareSync password) ok ->
             getUserId_document compareSync password d = Rejected e ->
             getUserId compareSync password (Resolved (ok ++ d :: rest))
             = Rejected e).
  { intros ok d rest e Hok Hd.
    destruct (ok ++ d :: rest) as [|d0 l] eqn:El;
      [now destruct ok|].
    rewrite getUserId_nonempty, <- El.
    now rewrite (id_loop_first_failure compareSync password ok d rest e). }
  split; [|split; [|split; [|split; [|split; [|split]]]]].
  - intros [docs|err] id; [|discriminate].
    destruct docs as [|d docs]; [discriminate|].
    rewrite getUserId_nonempty.
    destruct (forEach_document (d :: docs) tt _); discriminate.
  - reflexivity.
  - reflexivity.
  - intros [|d docs] Hne; [congruence|].
    rewrite getUserId_nonempty, <- id_loop_accepted.
    destruct (forEach_document (d :: docs) tt _) as [[]|e]; split;
      intros H; try reflexivity; discriminate.
  - intros ok d rest Hok Hpw. apply Hfail; [assumption|].
    unfold getUserId_document. now rewrite Hpw.
  - intros ok d rest Hok Hpw Hseg. apply Hfail; [assumption|].
    unfold getUserId_document. now rewrite Hpw, Hseg.
  - intros ok d rest e Hok Hpw. apply Hfail; [assumption|].
    unfold getUserId_document. now rewrite Hpw.
Qed.

Lemma getUserId_outcome_witness :
  Forall (document_accepted SampleDAO.compareSync (Some (lit "secret")))
    [SampleDAO.alice; SampleDAO.alice_again]
  /\ getUserId SampleDAO.compareSync (Some (lit "secret"))
       (Resolved [SampleDAO.alice; SampleDAO.alice_again])
     = Resolved None
  /\ getUserId SampleDAO.compareSync (Some (lit "guess"))
       (Resolved [SampleDAO.alice; SampleDAO.alice_again])
     = Rejected (Error (lit "Email ou senha incorreto(s)!"))
  /\ getUserId SampleDAO.compareSync None
       (Resolved [SampleDAO.alice; SampleDAO.alice_again])
     = Rejected (External tt).
Proof.
  assert (Hok : Forall (document_accepted SampleDAO.compareSync
                          (Some (lit "secret")))
                  [SampleDAO.alice; SampleDAO.alice_again]).
  { repeat constructor; vm_compute; discriminate. }
  destruct (getUserId_outcome jsstring unit SampleDAO.compareSync
              (Some (lit "secret")))
    as (_ & _ & _ & Hall & _).
  destruct (getUserId_outcome jsstring unit SampleDAO.compareSync
              (Some (lit "guess")))
    as (_ & _ & _ & _ & Hwrong & _).
  destruct (getUserId_outcome jsstring unit SampleDAO.compareSync None)
    as (_ & _ & _ & _ & _ & _ & Hthrow).
  split; [exact Hok|]. split; [|split].
  - apply Hall; [discriminate | exact Hok].
  - apply (Hwrong [] SampleDAO.alice [SampleDAO.alice_again]);
      [constructor | vm_compute; reflexivity].
  - apply (Hthrow [] SampleDAO.alice [SampleDAO.alice_again] (External tt));
      [constructor | vm_compute; reflexivity].
Defined.

(** X12. [getUser] resolves with the user built from the last document
    of the query, with the last segment of its path as id, when every
    document found has a path with a last segment and a matching
    password, and it never resolves without a user. An empty result and a
    wrong password reject with the same message,
    ["Email ou senha incorreto(s)!"]; a document whose path has no last
    segment rejects with an [Error] without message before its password
    is checked; a rejected query is passed on. *)
Theorem getUser_outcome :
  forall (Field User Foreign : Type)
         (compareSync :
            option jsstring -> option Field -> outcome (dao_error Foreign) bool)
         (new_User :
            jsstring -> option Field -> option Field -> option Field ->
            option Field -> option Field -> User)
         (password : option jsstring),
    (forall query,
        getUser compareSync new_User password query <> Resolved None)
    /\ (forall err,
           getUser compareSync new_User password (Rejected err)
           = Rejected err)
    /\ getUser compareSync new_User password (Resolved [])
       = Rejected (Error (lit "Email ou senha incorreto(s)!"))
    /\ (forall docs d id,
           Forall (document_accepted compareSync password) docs ->
           document_accepted compareSync password d ->
           match_last_segment (ref_path d) = Some id ->
           getUser compareSync new_User password (Resolved (docs ++ [d]))
           = Resolved
               (Some (new_User id
                        (JsObj.get (doc_fields d) (lit "permission"))
                        (JsObj.get (doc_fields d) (lit "company"))
                        (JsObj.get (doc_fields d) (lit "email"))
                        (JsObj.get (doc_fields d) (lit "activate"))
                        (JsObj.get (doc_fields d) (lit "agency")))))
    /\ (forall ok d rest id,
           Forall (document_accepted compareSync password) ok ->
           match_last_segment (ref_path d) = Some id ->
           compareSync password (JsObj.get (doc_fields d) (lit "password"))
           = Resolved false ->
           getUser compareSync new_User password (Resolved (ok ++ d :: rest))
           = getUser compareSync new_User password (Resolved []))
    /\ (forall ok d rest,
           Forall (document_accepted compareSync password) ok ->
           match_last_segment (ref_path d) = None ->
           getUser compareSync new_User password (Resolved (ok ++ d :: rest))
           = Rejected (Error [])).
Proof.
  intros Field User Foreign compareSync new_User password.
  assert (Hne : forall docs,
             docs <> [] ->
             getUser compareSync new_User password (Resolved docs)
             = forEach_document docs None
                 (getUser_document compareSync new_User password)).
  { intros [|d docs] H; [congruence | reflexivity]. }
  split; [|split; [|split; [|split; [|split]]]].
  - intros [docs|err]; [|discriminate].
    destruct docs as [|d docs]; [discriminate|].
    rewrite Hne by discriminate. intros H.
    destruct (user_loop_defined compareSync new_User password
                (d :: docs) None None H eq_refl) as [Hd _].
    discriminate.
  - reflexivity.
  - reflexivity.
  - intros docs d id Hok Hd Hid.
    rewrite Hne by (now destruct docs).
    now apply user_loop_accepted.
  - intros ok d rest id Hok Hid Hpw.
    rewrite Hne by (now destruct ok).
    apply user_loop_first_failure; [assumption|].
    intros u. unfold getUser_document. now rewrite Hid, Hpw.
  - intros ok d rest Hok Hid.
    rewrite Hne by (now destruct ok).
    apply user_loop_first_failure; [assumption|].
    intros u. unfold getUser_document. now rewrite Hid.
Qed.

Lemma getUser_outcome_witness :
  Forall (document_accepted SampleDAO.compareSync (Some (lit "secret")))
    [SampleDAO.alice]
  /\ document_accepted SampleDAO.compareSync (Some (lit "secret"))
       SampleDAO.alice_again
  /\ getUser SampleDAO.compareSync SampleDAO.new_User (Some (lit "secret"))
       (Resolved [SampleDAO.alice; SampleDAO.alice_again])
     = Resolved
         (Some (lit "a2", Some (lit "user"), None, Some (lit "a@x.com"),
                None, None))
  /\ getUser SampleDAO.compareSync SampleDAO.new_User (Some (lit "secret"))
       (Resolved [SampleDAO.alice; SampleDAO.no_segment])
     = Rejected (Error []).
Proof.
  assert (Hok : Forall (document_accepted SampleDAO.compareSync
                          (Some (lit "secret"))) [SampleDAO.alice]).
  { repeat constructor; vm_compute; discriminate. }
  assert (Hd : document_accepted SampleDAO.compareSync (Some (lit "secret"))
                 SampleDAO.alice_again).
  { split; vm_compute; [reflexivity | discriminate]. }
  destruct (getUser_outcome jsstring _ unit SampleDAO.compareSync
              SampleDAO.new_User (Some (lit "secret")))
    as (_ & _ & _ & Hlast & _ & Hseg).
  split; [exact Hok|]. split; [exact Hd|]. split.
  - assert (Hid : match_last_segment (ref_path SampleDAO.alice_again)
                  = Some (lit "a2")) by (vm_compute; reflexivity).
    pose proof (Hlast [SampleDAO.alice] SampleDAO.alice_again (lit "a2")
                  Hok Hd Hid) as H.
    cbn [app] in H. rewrite H. vm_compute. reflexivity.
  - apply (Hseg [SampleDAO.alice] SampleDAO.no_segment []);
      [exact Hok | vm_compute; reflexivity].
Defined.
